(** * wrapix: the krun PTY relay and the fakeuid preload shim

    A shallow embedding of [lib/sandbox/linux/krun-relay.c] and
    [lib/sandbox/linux/fakeuid.c], and the properties their design
    document states about them.

    The relay is one process with one asynchronous signal handler.  It is
    modelled as a machine that runs one system call (with the code around
    it) per step; what the operating system answers is the input of the
    step, and the SIGCHLD handler may run between any two steps.  The
    relay is the entry point of the microVM: besides the child it forks,
    descendants of that child are re-parented to it when their parent
    ends, its [waitpid (-1)] takes any of them, and as with any process
    another one may send it SIGCHLD. *)

From Stdlib Require Import ZArith List String Ascii Bool Lia.
From Stdlib.Strings Require Import Byte.
From Stdlib Require Import DecimalString.
Import ListNotations.
Local Open Scope Z_scope.

(** ** The C library and kernel interface the two files are written against *)

Module Libc.

(** [int], [long] and [unsigned short] on Linux x86-64 / aarch64. *)
Definition LONG_MIN : Z := - 2 ^ 63.
Definition LONG_MAX : Z := 2 ^ 63 - 1.

(** conversion to [int]: wrap-around modulo 2^32 *)
Definition to_int (z : Z) : Z := (z + 2 ^ 31) mod 2 ^ 32 - 2 ^ 31.

(** the cast [(unsigned short) z] *)
Definition to_ushort (z : Z) : Z := z mod 2 ^ 16.

(** [isspace] in the C locale: space, \t, \n, \v, \f, \r *)
Definition isspace (c : ascii) : bool :=
  let n := N.to_nat (N_of_ascii c) in
  (Nat.eqb n 32 || (Nat.leb 9 n && Nat.leb n 13))%bool.

Definition isdigit (c : ascii) : bool :=
  let n := N.to_nat (N_of_ascii c) in
  (Nat.leb 48 n && Nat.leb n 57)%bool.

Definition digit_val (c : ascii) : Z := Z.of_N (N_of_ascii c) - 48.

Fixpoint skip_space (s : string) : string :=
  match s with
  | String c rest => if isspace c then skip_space rest else s
  | EmptyString => s
  end.

(** the digits of a numeral, most significant first, onto [acc] *)
Fixpoint read_digits (acc : Z) (s : string) : Z :=
  match s with
  | String c rest =>
      if isdigit c then read_digits (10 * acc + digit_val c) rest else acc
  | EmptyString => acc
  end.

Definition clamp_long (z : Z) : Z := Z.max LONG_MIN (Z.min LONG_MAX z).

(** [strtol (s, NULL, 10)]: leading white space, an optional sign, then
    decimal digits; no digits gives 0; out of range saturates. *)
Definition strtol10 (s : string) : Z :=
  match skip_space s with
  | String c rest =>
      if Ascii.eqb c "-" then clamp_long (- read_digits 0 rest)
      else if Ascii.eqb c "+" then clamp_long (read_digits 0 rest)
      else clamp_long (read_digits 0 (String c rest))
  | EmptyString => clamp_long 0
  end.

(** [atoi (s)], which glibc defines as [(int) strtol (s, NULL, 10)] *)
Definition atoi (s : string) : Z := to_int (strtol10 s).

(** The environment: the NAME=value entries in order; [getenv] returns
    the first entry of that name, [None] standing for NULL. *)
Definition environ := list (string * string).

Fixpoint getenv (env : environ) (name : string) : option string :=
  match env with
  | [] => None
  | (k, v) :: rest => if String.eqb k name then Some v else getenv rest name
  end.

(** <sys/wait.h>: the status word [waitpid] stores *)
Definition WTERMSIG (status : Z) : Z := Z.land status 127.
Definition WIFEXITED (status : Z) : bool := WTERMSIG status =? 0.
Definition WEXITSTATUS (status : Z) : Z :=
  Z.shiftr (Z.land status 65280) 8.

(** How a process ends, and the status word the kernel builds for it. *)
Inductive termination :=
| Exited (code : Z)                    (* _exit (code), low 8 bits kept *)
| Signaled (sig : Z) (core : bool).    (* killed by signal [sig] *)

Definition wait_status (t : termination) : Z :=
  match t with
  | Exited code => Z.shiftl (Z.land code 255) 8
  | Signaled sig core => Z.lor sig (if core then 128 else 0)
  end.

(** <errno.h> *)
Definition EINTR : Z := 4.
Definition EIO : Z := 5.
Definition ECHILD : Z := 10.   (* what waitpid fails with once the child is gone *)
Definition EAGAIN : Z := 11.

(** <poll.h> *)
Definition POLLIN : Z := 1.
Definition POLLERR : Z := 8.
Definition POLLHUP : Z := 16.

(** <fcntl.h> *)
Definition O_NONBLOCK : Z := 2048.

(** <sys/ioctl.h> *)
Definition TIOCGWINSZ : Z := 21523.  (* 0x5413 *)

Record winsize := mk_winsize {
  ws_row : Z;
  ws_col : Z;
  ws_xpixel : Z;
  ws_ypixel : Z
}.

(** <termios.h>: the four mode words of a terminal *)
Record termios := mk_termios {
  c_iflag : Z;
  c_oflag : Z;
  c_cflag : Z;
  c_lflag : Z
}.

Definition clear_bits (word mask : Z) : Z := Z.land word (Z.lnot mask).

(** [cfmakeraw]: IGNBRK|BRKINT|PARMRK|ISTRIP|INLCR|IGNCR|ICRNL|IXON off,
    OPOST off, ECHO|ECHONL|ICANON|ISIG|IEXTEN off, CSIZE|PARENB off,
    CS8 on. *)
Definition cfmakeraw (t : termios) : termios :=
  {| c_iflag := clear_bits (c_iflag t) 1515;    (* 0o2753 *)
     c_oflag := clear_bits (c_oflag t) 1;
     c_cflag := Z.lor (clear_bits (c_cflag t) 304) 48;
     c_lflag := clear_bits (c_lflag t) 32843 |}.   (* 0o100113 *)

End Libc.

(** ** fakeuid.c: the LD_PRELOAD shim *)

Module FakeUid.
Import Libc.

(** UID/GID spoofing *)
Definition getuid : Z := 1000.
Definition geteuid : Z := 1000.
Definition getgid : Z := 1000.
Definition getegid : Z := 1000.

Definition set_ws_row (ws : winsize) (v : Z) : winsize :=
  {| ws_row := v; ws_col := ws_col ws;
     ws_xpixel := ws_xpixel ws; ws_ypixel := ws_ypixel ws |}.

Definition set_ws_col (ws : winsize) (v : Z) : winsize :=
  {| ws_row := ws_row ws; ws_col := v;
     ws_xpixel := ws_xpixel ws; ws_ypixel := ws_ypixel ws |}.

Section Ioctl.
(** The next [ioctl] in link order, found once with
    [dlsym (RTLD_NEXT, "ioctl")].  The wrapper reads the memory behind
    [arg] only as a [struct winsize], so that memory is given as one:
    the call maps its contents before to the returned value and its
    contents after. *)
Variable real_ioctl : Z -> Z -> winsize -> Z * winsize.
Variable env : environ.

Definition ioctl (fd request : Z) (arg : winsize) : Z * winsize :=
  let '(ret, ws) := real_ioctl fd request arg in
  (* Patch 0x0 terminal size to host dimensions from env vars *)
  if request =? TIOCGWINSZ then
    if (negb (ret =? 0) || ((ws_row ws =? 0) && (ws_col ws =? 0)))%bool
    then
      let rows := getenv env "WRAPIX_TERM_ROWS" in
      let cols := getenv env "WRAPIX_TERM_COLS" in
      let ws := match rows with
                | Some r => set_ws_row ws (to_ushort (atoi r))
                | None => ws
                end in
      let ws := match cols with
                | Some c => set_ws_col ws (to_ushort (atoi c))
                | None => ws
                end in
      (0, ws)
    else (ret, ws)
  else (ret, ws).
End Ioctl.

End FakeUid.

(** ** krun-relay.c *)

Module Relay.
Import Libc.

Definition STDIN_FILENO : Z := 0.
Definition STDOUT_FILENO : Z := 1.

(** [sizeof (buf)] *)
Definition BUFSIZE : nat := 4096.

(** The kernel's record of the process forkpty created. *)
Inductive child_proc :=
| NoChild                    (* nothing forked (yet) *)
| Running
| Zombie (status : Z)        (* terminated, not yet waited for *)
| Reaped (status : Z).       (* waited for: gone *)

(** What the child side of the fork asks [execvp] / [execv] for. *)
Record exec_request := mk_exec {
  search_path : bool;        (* execvp searches PATH, execv does not *)
  exec_file : string;
  exec_args : list string
}.

(** Where the process stands in [main]; the number is the source line of
    the call the next step makes. *)
Inductive pc :=
| AtForkpty                  (* 44-64 *)
| AtExec                     (* 73-78, child side *)
| Execed (req : exec_request) (* the child is now another program *)
| ChildExit (code : Z)       (* 80: _exit *)
| AtTcgetattr                (* 89 *)
| AtSetRaw                   (* 91-93 *)
| AtFcntl                    (* 97-99 *)
| AtLoopTest                 (* 104 *)
| AtPoll                     (* 111 *)
| AtReadStdin                (* 120 *)
| AtReadMaster               (* 133 *)
| AtDrain                    (* 147 *)
| AtClose                    (* 152 *)
| AtRestore                  (* 155-156 *)
| AtReapTest                 (* 159 *)
| AtWaitpid                  (* 161-162 *)
| AtReturn                   (* 165 *)
| Returned (code : Z).       (* 67, 165: return from main *)

Record state := mk_state {
  at_pc : pc;
  (* the variables of the program *)
  child_exited : bool;
  child_status : Z;
  pid : Z;
  master : Z;
  have_orig : bool;
  orig_termios : termios;
  buf : list byte;
  revents0 : Z;              (* fds[0].revents *)
  revents1 : Z;              (* fds[1].revents *)
  (* the system around it *)
  console : option termios;  (* modes of the terminal behind stdin, if it is one *)
  console_settable : bool;   (* whether that terminal takes tcsetattr *)
  child : child_proc;
  sigchld_pending : bool;
  pty_size : option winsize; (* size of the allocated PTY *)
  master_flags : Z;          (* file status flags of the master *)
  (* what the process did, oldest first *)
  written : list (Z * list byte);   (* write (fd, bytes) *)
  closes : list Z;                  (* close (fd) *)
  restores : list termios;          (* tcsetattr at line 156 *)
  waits : list Z;                   (* results of waitpid at line 161 *)
  (* the other descendants, and signals *)
  strays : list (Z * Z);            (* re-parented descendants that have
                                       terminated and are not yet waited
                                       for: pid and status *)
  reaped : list (Z * Z);            (* what waitpid (-1) at line 37 has
                                       returned, the latest first: pid
                                       and status *)
  wait_signalled : bool             (* the handler has run since control
                                       came to line 161 *)
}.

Definition set_pc (p : pc) (s : state) : state :=
  mk_state p (child_exited s) (child_status s) (pid s) (master s)
    (have_orig s) (orig_termios s) (buf s) (revents0 s) (revents1 s)
    (console s) (console_settable s) (child s) (sigchld_pending s)
    (pty_size s) (master_flags s) (written s) (closes s) (restores s)
    (waits s)
    (strays s) (reaped s) (wait_signalled s).

Definition set_child_record (exited : bool) (status : Z) (s : state) : state :=
  mk_state (at_pc s) exited status (pid s) (master s)
    (have_orig s) (orig_termios s) (buf s) (revents0 s) (revents1 s)
    (console s) (console_settable s) (child s) (sigchld_pending s)
    (pty_size s) (master_flags s) (written s) (closes s) (restores s)
    (waits s)
    (strays s) (reaped s) (wait_signalled s).

Definition set_fork (p m : Z) (ws : winsize) (s : state) : state :=
  mk_state (at_pc s) (child_exited s) (child_status s) p m
    (have_orig s) (orig_termios s) (buf s) (revents0 s) (revents1 s)
    (console s) (console_settable s) Running (sigchld_pending s)
    (Some ws) (master_flags s) (written s) (closes s) (restores s)
    (waits s)
    (strays s) (reaped s) (wait_signalled s).

Definition set_orig (have : bool) (t : termios) (s : state) : state :=
  mk_state (at_pc s) (child_exited s) (child_status s) (pid s) (master s)
    have t (buf s) (revents0 s) (revents1 s)
    (console s) (console_settable s) (child s) (sigchld_pending s)
    (pty_size s) (master_flags s) (written s) (closes s) (restores s)
    (waits s)
    (strays s) (reaped s) (wait_signalled s).

Definition set_buf (b : list byte) (s : state) : state :=
  mk_state (at_pc s) (child_exited s) (child_status s) (pid s) (master s)
    (have_orig s) (orig_termios s) b (revents0 s) (revents1 s)
    (console s) (console_settable s) (child s) (sigchld_pending s)
    (pty_size s) (master_flags s) (written s) (closes s) (restores s)
    (waits s)
    (strays s) (reaped s) (wait_signalled s).

Definition set_revents (r0 r1 : Z) (s : state) : state :=
  mk_state (at_pc s) (child_exited s) (child_status s) (pid s) (master s)
    (have_orig s) (orig_termios s) (buf s) r0 r1
    (console s) (console_settable s) (child s) (sigchld_pending s)
    (pty_size s) (master_flags s) (written s) (closes s) (restores s)
    (waits s)
    (strays s) (reaped s) (wait_signalled s).

Definition set_console (c : option termios) (s : state) : state :=
  mk_state (at_pc s) (child_exited s) (child_status s) (pid s) (master s)
    (have_orig s) (orig_termios s) (buf s) (revents0 s) (revents1 s)
    c (console_settable s) (child s) (sigchld_pending s)
    (pty_size s) (master_flags s) (written s) (closes s) (restores s)
    (waits s)
    (strays s) (reaped s) (wait_signalled s).

Definition set_child (c : child_proc) (pending : bool) (s : state) : state :=
  mk_state (at_pc s) (child_exited s) (child_status s) (pid s) (master s)
    (have_orig s) (orig_termios s) (buf s) (revents0 s) (revents1 s)
    (console s) (console_settable s) c pending
    (pty_size s) (master_flags s) (written s) (closes s) (restores s)
    (waits s)
    (strays s) (reaped s) (wait_signalled s).

Definition set_master_flags (f : Z) (s : state) : state :=
  mk_state (at_pc s) (child_exited s) (child_status s) (pid s) (master s)
    (have_orig s) (orig_termios s) (buf s) (revents0 s) (revents1 s)
    (console s) (console_settable s) (child s) (sigchld_pending s)
    (pty_size s) f (written s) (closes s) (restores s)
    (waits s)
    (strays s) (reaped s) (wait_signalled s).

Definition log_write (fd : Z) (bytes : list byte) (s : state) : state :=
  mk_state (at_pc s) (child_exited s) (child_status s) (pid s) (master s)
    (have_orig s) (orig_termios s) (buf s) (revents0 s) (revents1 s)
    (console s) (console_settable s) (child s) (sigchld_pending s)
    (pty_size s) (master_flags s) (written s ++ [(fd, bytes)]) (closes s)
    (restores s) (waits s)
    (strays s) (reaped s) (wait_signalled s).

Definition log_close (fd : Z) (s : state) : state :=
  mk_state (at_pc s) (child_exited s) (child_status s) (pid s) (master s)
    (have_orig s) (orig_termios s) (buf s) (revents0 s) (revents1 s)
    (console s) (console_settable s) (child s) (sigchld_pending s)
    (pty_size s) (master_flags s) (written s) (closes s ++ [fd])
    (restores s) (waits s)
    (strays s) (reaped s) (wait_signalled s).

Definition log_restore (t : termios) (s : state) : state :=
  mk_state (at_pc s) (child_exited s) (child_status s) (pid s) (master s)
    (have_orig s) (orig_termios s) (buf s) (revents0 s) (revents1 s)
    (console s) (console_settable s) (child s) (sigchld_pending s)
    (pty_size s) (master_flags s) (written s) (closes s)
    (restores s ++ [t]) (waits s)
    (strays s) (reaped s) (wait_signalled s).

Definition log_wait (r : Z) (s : state) : state :=
  mk_state (at_pc s) (child_exited s) (child_status s) (pid s) (master s)
    (have_orig s) (orig_termios s) (buf s) (revents0 s) (revents1 s)
    (console s) (console_settable s) (child s) (sigchld_pending s)
    (pty_size s) (master_flags s) (written s) (closes s)
    (restores s) (waits s ++ [r])
    (strays s) (reaped s) (wait_signalled s).

Definition set_pending (pending : bool) (s : state) : state :=
  set_child (child s) pending s.

Definition set_strays (l : list (Z * Z)) (s : state) : state :=
  mk_state (at_pc s) (child_exited s) (child_status s) (pid s) (master s)
    (have_orig s) (orig_termios s) (buf s) (revents0 s) (revents1 s)
    (console s) (console_settable s) (child s) (sigchld_pending s)
    (pty_size s) (master_flags s) (written s) (closes s) (restores s)
    (waits s)
    l (reaped s) (wait_signalled s).

Definition log_reap (p status : Z) (s : state) : state :=
  mk_state (at_pc s) (child_exited s) (child_status s) (pid s) (master s)
    (have_orig s) (orig_termios s) (buf s) (revents0 s) (revents1 s)
    (console s) (console_settable s) (child s) (sigchld_pending s)
    (pty_size s) (master_flags s) (written s) (closes s) (restores s)
    (waits s)
    (strays s) ((p, status) :: reaped s) (wait_signalled s).

Definition set_wait_signalled (b : bool) (s : state) : state :=
  mk_state (at_pc s) (child_exited s) (child_status s) (pid s) (master s)
    (have_orig s) (orig_termios s) (buf s) (revents0 s) (revents1 s)
    (console s) (console_settable s) (child s) (sigchld_pending s)
    (pty_size s) (master_flags s) (written s) (closes s) (restores s)
    (waits s)
    (strays s) (reaped s) b.

(** *** What the system answers *)

Inductive read_result :=
| Got (data : list byte)     (* that many bytes were read; none is end of file *)
| Failed (errno : Z).        (* -1 *)

Inductive event :=
| Child_ends (t : termination) (* the child terminates; SIGCHLD is raised *)
| Sigchld                      (* the pending SIGCHLD is delivered; waitpid (-1)
                                  takes the child if it has terminated, else
                                  the first waiting stray *)
| Stray_ends (p : Z) (t : termination)
                               (* a re-parented descendant, of a pid [p]
                                  other than the child's, terminates;
                                  SIGCHLD is raised *)
| Sigchld_stray (k : nat)      (* the pending SIGCHLD is delivered; waitpid (-1)
                                  takes the stray number [k] *)
| Sigchld_raised               (* another process sends SIGCHLD *)
| Go                           (* a call whose result the state fixes or main ignores *)
| Ret_forkpty (pid master : Z)
| Ret_exec_failed              (* exec returned *)
| Exec_done                    (* exec did not return *)
| Ret_fcntl (flags : Z)
| Ret_poll (ret errno rev0 rev1 : Z)
| Ret_read (r : read_result)
| Ret_waitpid (stale : Z)      (* [stale]: what the unset local [status] holds *)
| Wait_interrupted (stale : Z). (* waitpid at line 161 returns -1, EINTR *)

Definition valid_termination (t : termination) : bool :=
  match t with
  | Exited _ => true
  | Signaled sig _ => (1 <=? sig) && (sig <=? 64)
  end.

Definition valid_read (r : read_result) : bool :=
  match r with
  | Got data => Nat.leb (List.length data) BUFSIZE
  | Failed _ => true
  end.

Definition read_errno (r : read_result) : Z :=
  match r with
  | Got _ => 0
  | Failed errno => errno
  end.

(** *** The pieces of [main] *)

(** 124-127: the loop over buf[0] .. buf[n-1] *)
Fixpoint lf_to_cr (n : nat) (b : list byte) : list byte :=
  match n, b with
  | S n', c :: rest =>
      (if Byte.eqb c x0a then x0d else c) :: lf_to_cr n' rest
  | _, _ => b
  end.

(** [read (fd, buf, sizeof (buf))]: the bytes land at the start of buf *)
Definition read (r : read_result) (s : state) : Z * state :=
  match r with
  | Got data =>
      (Z.of_nat (List.length data),
       set_buf (data ++ skipn (List.length data) (buf s)) s)
  | Failed _ => (-1, s)
  end.

(** [write (fd, buf, n)]; what it returns is not looked at *)
Definition write (fd : Z) (n : Z) (s : state) : state :=
  log_write fd (firstn (Z.to_nat n) (buf s)) s.

(** [tcsetattr (STDIN_FILENO, TCSANOW, t)] *)
Definition tcsetattr (t : termios) (s : state) : state :=
  match console s with
  | Some _ => if console_settable s then set_console (Some t) s else s
  | None => s
  end.

(** [waitpid (pid, &status, 0)], the blocking wait for the child at line
    161: the value returned, the status stored if any, the child
    afterwards; [None] while the call has not returned.  Left alone it
    returns once the child has terminated, or at once with -1 (ECHILD)
    when the child is no longer there to wait for.  The handler is
    installed without SA_RESTART (line 55), so when it runs during the
    call the call is [interrupted]: it returns -1 (EINTR), stores
    nothing and reaps nothing. *)
Definition waitpid (interrupted : bool) (s : state)
    : option (Z * option Z * child_proc) :=
  if interrupted then
    if wait_signalled s then Some (-1, None, child s) else None
  else
    match child s with
    | Zombie status => Some (pid s, Some status, Reaped status)
    | Reaped status => Some (-1, None, Reaped status)
    | NoChild => Some (-1, None, NoChild)
    | Running => None
    end.

(** What a successful [waitpid (-1, &status, WNOHANG)] gives: the process
    taken, its status, and the system afterwards. *)
Record reap := mk_reap {
  reap_pid : Z;
  reap_status : Z;
  reap_after : state
}.

Definition reap_child (s : state) : option reap :=
  match child s with
  | Zombie status =>
      Some (mk_reap (pid s) status
              (log_reap (pid s) status
                 (set_child (Reaped status) (sigchld_pending s) s)))
  | _ => None
  end.

(** [l] without its element number [k] *)
Definition remove_nth {A} (k : nat) (l : list A) : list A :=
  firstn k l ++ skipn (S k) l.

Arguments remove_nth : simpl never.

Definition reap_stray (k : nat) (s : state) : option reap :=
  match nth_error (strays s) k with
  | Some ps =>
      Some (mk_reap (fst ps) (snd ps)
              (log_reap (fst ps) (snd ps)
                 (set_strays (remove_nth k (strays s)) s)))
  | None => None
  end.

(** [waitpid (-1, &status, WNOHANG)]: any terminated descendant may be
    taken, [pick] says which; [None] when there is none to take (the call
    then returns 0 or -1). *)
Definition waitpid_any (pick : option nat) (s : state) : option reap :=
  match pick with
  | Some k => reap_stray k s
  | None =>
      match reap_child s with
      | Some r => Some r
      | None => reap_stray 0 s
      end
  end.

(** 34-41 *)
Definition sigchld_handler (pick : option nat) (s : state) : state :=
  match waitpid_any pick s with
  | Some r =>
      if reap_pid r >? 0
      then set_child_record true (reap_status r) (reap_after r)
      else reap_after r
  | None => s
  end.

(** A handler that runs while control is at line 161 interrupts the wait
    if the call has been entered. *)
Definition note_signal (s : state) : state :=
  match at_pc s with
  | AtWaitpid => set_wait_signalled true s
  | _ => s
  end.

(** A delivery of SIGCHLD: the signal is no longer pending, the handler
    runs. *)
Definition deliver (pick : option nat) (s : state) : state :=
  note_signal (sigchld_handler pick (set_pending false s)).

(** 165 *)
Definition exit_status (status : Z) : Z :=
  if WIFEXITED status then WEXITSTATUS status else 1.

(** 140-141, then back to 104 *)
Definition hup_test (s : state) : pc :=
  if negb (Z.land (revents0 s) (Z.lor POLLHUP POLLERR) =? 0) then AtDrain
  else if negb (Z.land (revents1 s) POLLHUP =? 0) then AtDrain
  else AtLoopTest.

(** 132 *)
Definition master_test (s : state) : pc :=
  if negb (Z.land (revents1 s) POLLIN =? 0) then AtReadMaster
  else hup_test s.

(** 119 *)
Definition stdin_test (s : state) : pc :=
  if negb (Z.land (revents0 s) POLLIN =? 0) then AtReadStdin
  else master_test s.

(** 45-49, 60-63 *)
Definition term_rows (env : environ) : Z :=
  match getenv env "WRAPIX_TERM_ROWS" with
  | Some r => atoi r
  | None => 24
  end.

Definition term_cols (env : environ) : Z :=
  match getenv env "WRAPIX_TERM_COLS" with
  | Some c => atoi c
  | None => 80
  end.

Definition initial_winsize (env : environ) : winsize :=
  {| ws_row := to_ushort (term_rows env);
     ws_col := to_ushort (term_cols env);
     ws_xpixel := 0; ws_ypixel := 0 |}.

(** 73-78 *)
Definition child_exec (argv : list string) : exec_request :=
  if (1 <? Z.of_nat (List.length argv)) then
    mk_exec true (nth 1 argv EmptyString) (tl argv)
  else
    mk_exec false "/krun-init.sh" ["/krun-init.sh"%string].

Definition set_pid (p : Z) (s : state) : state :=
  mk_state (at_pc s) (child_exited s) (child_status s) p (master s)
    (have_orig s) (orig_termios s) (buf s) (revents0 s) (revents1 s)
    (console s) (console_settable s) (child s) (sigchld_pending s)
    (pty_size s) (master_flags s) (written s) (closes s) (restores s)
    (waits s)
    (strays s) (reaped s) (wait_signalled s).

(** no step leaves these *)
Definition halted (p : pc) : bool :=
  match p with
  | Returned _ | ChildExit _ | Execed _ => true
  | _ => false
  end.

(** 161-162: the result of waitpid is not looked at, and [child_status]
    gets what the local [status] holds, [stale] when waitpid has not
    written it. *)
Definition wait_and_store (interrupted : bool) (stale : Z) (s : state)
    : option state :=
  match waitpid interrupted s with
  | Some (ret, status, c) =>
      let st := match status with Some v => v | None => stale end in
      let s := log_wait ret (set_child c (sigchld_pending s) s) in
      Some (set_pc AtReturn (set_child_record (child_exited s) st s))
  | None => None
  end.

Section Main.
Variable argv : list string.
Variable env : environ.

(** *** [main], one call at a time *)
Definition main_step (s : state) (e : event) : option state :=
  match at_pc s, e with
  | AtForkpty, Ret_forkpty p m =>
      if p <? 0 then Some (set_pc (Returned 1) (set_pid p s))
      else if p =? 0 then Some (set_pc AtExec (set_pid p s))
      else Some (set_pc AtTcgetattr (set_fork p m (initial_winsize env) s))
  | AtExec, Exec_done => Some (set_pc (Execed (child_exec argv)) s)
  | AtExec, Ret_exec_failed => Some (set_pc (ChildExit 127) s)
  | AtTcgetattr, Go =>
      match console s with
      | Some t => Some (set_pc AtSetRaw (set_orig true t s))
      | None => Some (set_pc AtFcntl (set_orig false (orig_termios s) s))
      end
  | AtSetRaw, Go =>
      Some (set_pc AtFcntl (tcsetattr (cfmakeraw (orig_termios s)) s))
  | AtFcntl, Ret_fcntl flags =>
      if flags >=? 0
      then Some (set_pc AtLoopTest
                   (set_master_flags (Z.lor flags O_NONBLOCK) s))
      else Some (set_pc AtLoopTest s)
  | AtLoopTest, Go =>
      if child_exited s then Some (set_pc AtDrain s)
      else Some (set_pc AtPoll s)
  | AtPoll, Ret_poll ret errno rev0 rev1 =>
      if ret <? 0 then
        if errno =? EINTR then Some (set_pc AtLoopTest s)
        else Some (set_pc AtDrain s)
      else if ret =? 0 then Some (set_pc AtLoopTest s)
      else
        let s := set_revents rev0 rev1 s in
        Some (set_pc (stdin_test s) s)
  | AtReadStdin, Ret_read r =>
      if valid_read r then
        let '(n, s) := read r s in
        if n <=? 0 then Some (set_pc AtDrain s)
        else
          let s := set_buf (lf_to_cr (Z.to_nat n) (buf s)) s in
          let s := write (master s) n s in
          Some (set_pc (master_test s) s)
      else None
  | AtReadMaster, Ret_read r =>
      if valid_read r then
        let '(n, s) := read r s in
        if n >? 0 then
          let s := write STDOUT_FILENO n s in
          Some (set_pc (hup_test s) s)
        else if (n <? 0) && negb (read_errno r =? EAGAIN)
                && negb (read_errno r =? EIO)
        then Some (set_pc AtDrain s)
        else Some (set_pc (hup_test s) s)
      else None
  | AtDrain, Ret_read r =>
      if valid_read r then
        let '(n, s) := read r s in
        if n <=? 0 then Some (set_pc AtClose s)
        else Some (set_pc AtDrain (write STDOUT_FILENO n s))
      else None
  | AtClose, Go => Some (set_pc AtRestore (log_close (master s) s))
  | AtRestore, Go =>
      if have_orig s
      then Some (set_pc AtReapTest
                   (log_restore (orig_termios s)
                      (tcsetattr (orig_termios s) s)))
      else Some (set_pc AtReapTest s)
  | AtReapTest, Go =>
      if child_exited s then Some (set_pc AtReturn s)
      else Some (set_pc AtWaitpid s)
  | AtWaitpid, Ret_waitpid stale => wait_and_store false stale s
  | AtWaitpid, Wait_interrupted stale => wait_and_store true stale s
  | AtReturn, Go => Some (set_pc (Returned (exit_status (child_status s))) s)
  | _, _ => None
  end.

(** One step of the process or of the system around it. *)
Definition step (s : state) (e : event) : option state :=
  if halted (at_pc s) then None
  else
    match e with
    | Child_ends t =>
        match child s with
        | Running =>
            if valid_termination t
            then Some (set_child (Zombie (wait_status t)) true s)
            else None
        | _ => None
        end
    | Sigchld =>
        if sigchld_pending s
        then Some (deliver None s)
        else None
    | Stray_ends p t =>
        match child s with
        | NoChild => None
        | _ =>
            if valid_termination t && (0 <? p) && negb (p =? pid s)
            then Some (set_pending true
                         (set_strays (strays s ++ [(p, wait_status t)]) s))
            else None
        end
    | Sigchld_stray k =>
        if sigchld_pending s then
          match nth_error (strays s) k with
          | Some _ => Some (deliver (Some k) s)
          | None => None
          end
        else None
    | Sigchld_raised => Some (set_pending true s)
    | _ => main_step s e
    end.

Fixpoint run (es : list event) (s : state) : option state :=
  match es with
  | [] => Some s
  | e :: rest =>
      match step s e with
      | Some s' => run rest s'
      | None => None
      end
  end.
End Main.

(** The process as [main] is entered: [cons] and [settable] describe the
    terminal behind stdin, [stack] is what the memory of [buf] holds. *)
Definition init (cons : option termios) (settable : bool)
    (stack : list byte) : state :=
  mk_state AtForkpty false 0 0 0 false (mk_termios 0 0 0 0) stack 0 0
    cons settable NoChild false None 0 [] [] [] [] [] [] false.

End Relay.

(** * Properties *)

Import Libc Relay.

(** ** Notions the statements use *)

(** What the design document says happens to one byte from stdin. *)
Definition lf_becomes_cr (c : byte) : byte :=
  if Byte.eqb c x0a then x0d else c.

(** The decimal numeral of [n], the way a launcher prints a size. *)
Definition decimal (n : Z) : string :=
  NilZero.string_of_uint (N.to_uint (Z.to_N n)).

(** A value with no number to parse: after the white space and an optional
    sign there is no digit. *)
Definition no_number (s : string) : bool :=
  match skip_space s with
  | String c rest =>
      if (Ascii.eqb c "-" || Ascii.eqb c "+")%bool then
        match rest with
        | String d _ => negb (isdigit d)
        | EmptyString => true
        end
      else negb (isdigit c)
  | EmptyString => true
  end.

(** An underlying ioctl that fails (as on a descriptor that is no
    terminal) and leaves the caller's memory alone. *)
Definition failing_ioctl (fd request : Z) (arg : winsize) : Z * winsize :=
  (-1, arg).

(** The state a run ends in, for runs known to go through. *)
Definition final (r : option state) : state :=
  match r with
  | Some s => s
  | None => init None false []
  end.

(** A sample session: a terminal in cooked mode behind stdin, twelve bytes
    of stack under [buf], the launcher's sizes in the environment. *)
Definition cooked : termios := mk_termios 1280 5 191 35387.

Definition sample_stack : list byte :=
  [x41; x42; x43; x44; x45; x46; x47; x48; x49; x4a; x4b; x4c].

Definition sample_env : environ :=
  [("WRAPIX_TERM_ROWS", "50"); ("WRAPIX_TERM_COLS", "120")]%string.

Definition sample_start : state := init (Some cooked) true sample_stack.

(** up to the first loop test *)
Definition sample_setup : list event :=
  [Ret_forkpty 7 3; Go; Go; Ret_fcntl 2].

(** ... then poll reports stdin readable *)
Definition sample_at_stdin : state :=
  Eval vm_compute in
    final (run [] sample_env (sample_setup ++ [Go; Ret_poll 1 0 1 0])
             sample_start).

(** ... or the master readable *)
Definition sample_at_master : state :=
  Eval vm_compute in
    final (run [] sample_env (sample_setup ++ [Go; Ret_poll 1 0 0 1])
             sample_start).

(** ... or the child gone and the handler run: the loop is left *)
Definition sample_at_drain : state :=
  Eval vm_compute in
    final (run [] sample_env
             (sample_setup ++ [Child_ends (Exited 3); Sigchld; Go])
             sample_start).

(** ... the whole session: a line typed, output relayed, the child exits
    with code 3, the handler runs, the loop ends, teardown *)
Definition sample_session : list event :=
  sample_setup ++
  [Go; Ret_poll 1 0 1 0; Ret_read (Got [x6c; x73; x0a]);
   Go; Ret_poll 1 0 0 1; Ret_read (Got [x6f; x6b; x0d; x0a]);
   Child_ends (Exited 3); Sigchld;
   Go; Ret_read (Got [x24]); Ret_read (Failed 5);
   Go; Go; Go; Go].

Definition sample_final : state :=
  Eval vm_compute in final (run [] sample_env sample_session sample_start).

(** ... a session whose child could not exec its command and left with
    127; the loop notices at its next test *)
Definition sample_exec_failed : list event :=
  sample_setup ++
  [Go; Ret_poll 0 0 0 0; Child_ends (Exited 127); Sigchld;
   Go; Ret_read (Failed 5); Go; Go; Go; Go].

Definition sample_final_127 : state :=
  Eval vm_compute in
    final (run [] sample_env sample_exec_failed sample_start).

(** ... a session in which stdin ends first, and the child ends as [t]
    just after the test at line 159 found the flag clear: the handler
    reaps it, the wait at line 161 then fails and leaves its [status] as
    it was, holding [stale] *)
Definition late_sigchld (t : termination) (stale : Z) : list event :=
  sample_setup ++
  [Go; Ret_poll 1 0 1 0; Ret_read (Got []);
   Ret_read (Failed 11); Go; Go; Go;
   Child_ends t; Sigchld; Ret_waitpid stale; Go].

(** [s'] differs from [s] at most in the exited flag, the status word, and
    what the kernel knows of the descendants and of the signal. *)
Definition same_but_child_record (s s' : state) : Prop :=
  at_pc s' = at_pc s /\ pid s' = pid s /\ master s' = master s /\
  have_orig s' = have_orig s /\ orig_termios s' = orig_termios s /\
  buf s' = buf s /\ revents0 s' = revents0 s /\ revents1 s' = revents1 s /\
  console s' = console s /\ console_settable s' = console_settable s /\
  pty_size s' = pty_size s /\ master_flags s' = master_flags s /\
  written s' = written s /\ closes s' = closes s /\
  restores s' = restores s /\ waits s' = waits s.

(** Sessions that return with a descendant left behind.

    A re-parented descendant, pid 9, ends while the relay polls and the
    child is running: the handler reaps it and sets the flag, the loop
    ends, and the test at line 159 skips the wait for the child. *)
Definition stray_ends_in_loop : list event :=
  sample_setup ++
  [Go; Stray_ends 9 (Exited 0); Sigchld; Ret_poll (-1) EINTR 0 0;
   Go; Ret_read (Failed EAGAIN); Go; Go; Go; Go].

(** Stdin ends first and the relay waits for the child at line 161; the
    descendant ends, the handler runs, and the wait fails with EINTR,
    its [status] holding [stale]. *)
Definition stray_ends_in_wait (stale : Z) : list event :=
  sample_setup ++
  [Go; Ret_poll 1 0 1 0; Ret_read (Got []);
   Ret_read (Failed 11); Go; Go; Go;
   Stray_ends 9 (Exited 0); Sigchld; Wait_interrupted stale; Go].

(** The same with a SIGCHLD another process sends. *)
Definition signal_in_wait (stale : Z) : list event :=
  sample_setup ++
  [Go; Ret_poll 1 0 1 0; Ret_read (Got []);
   Ret_read (Failed 11); Go; Go; Go;
   Sigchld_raised; Sigchld; Wait_interrupted stale; Go].

(** The descendant and the child end before the handler gets to run: the
    one SIGCHLD makes it reap one of the two. *)
Definition two_end_one_signal : list event :=
  sample_setup ++
  [Go; Stray_ends 9 (Exited 0); Child_ends (Exited 3); Sigchld;
   Ret_poll (-1) EINTR 0 0;
   Go; Ret_read (Failed EAGAIN); Go; Go; Go; Go].

(** *** What holds at every point of every run

    The parts of [main], by what has been done when control is there. *)

Definition has_child (s : state) : bool :=
  match child s with
  | NoChild => false
  | _ => true
  end.

(** the relay loop, lines 104-143 *)
Definition in_loop (p : pc) : bool :=
  match p with
  | AtLoopTest | AtPoll | AtReadStdin | AtReadMaster => true
  | _ => false
  end.

(** tcgetattr at line 89 is behind *)
Definition captured (p : pc) : bool :=
  match p with
  | AtForkpty | AtExec | Execed _ | ChildExit _ | AtTcgetattr => false
  | _ => true
  end.

(** close at line 152 is behind *)
Definition closed_by (p : pc) : bool :=
  match p with
  | AtRestore | AtReapTest | AtWaitpid | AtReturn | Returned _ => true
  | _ => false
  end.

(** the restore at lines 155-156 is behind *)
Definition restored_by (p : pc) : bool :=
  match p with
  | AtReapTest | AtWaitpid | AtReturn | Returned _ => true
  | _ => false
  end.

(** the test and the wait at lines 159-163 are behind *)
Definition reaped_by (p : pc) : bool :=
  match p with
  | AtReturn | Returned _ => true
  | _ => false
  end.

Definition is_some {A} (o : option A) : bool :=
  match o with
  | Some _ => true
  | None => false
  end.

(** Nothing has happened yet: before forkpty, on the child side of it, and
    when it failed.  [cons] is the terminal the run started with. *)
Definition fresh (cons : option termios) (s : state) : Prop :=
  child s = NoChild /\ child_exited s = false /\ strays s = [] /\
  written s = [] /\ closes s = [] /\ restores s = [] /\ waits s = [] /\
  console s = cons /\ have_orig s = false.

(** The parent after a successful forkpty. *)
Definition parent_inv (cons : option termios) (s : state) : Prop :=
  0 < pid s /\
  closes s = (if closed_by (at_pc s) then [master s] else []) /\
  restores s = (if restored_by (at_pc s) && have_orig s
                then [orig_termios s] else []) /\
  have_orig s = captured (at_pc s) && is_some cons /\
  (if have_orig s
   then cons = Some (orig_termios s) /\
        (console s = Some (orig_termios s) \/
         restored_by (at_pc s) = false /\ console_settable s = true /\
         console s = Some (cfmakeraw (orig_termios s)))
   else console s = cons) /\
  (if reaped_by (at_pc s)
   then waits s = [] /\ child_exited s = true \/
        waits s = [pid s] \/
        waits s = [-1]
   else waits s = []).

Definition Inv (cons : option termios) (s : state) : Prop :=
  match at_pc s with
  | AtForkpty | AtExec | Execed _ | ChildExit _ => fresh cons s
  | Returned rc =>
      (fresh cons s /\ rc = 1 /\ pid s < 0) \/
      (has_child s = true /\ rc = exit_status (child_status s) /\
       parent_inv cons s)
  | _ => has_child s = true /\ parent_inv cons s
  end.

(** *** The descendants

    The flag and the status word against what the handler has reaped:
    the flag is set exactly when a reap has returned a process, and until
    line 162 writes it the status word is that of the latest one. *)
Definition flag_inv (s : state) : Prop :=
  match reaped s with
  | [] => child_exited s = false
  | r :: _ =>
      child_exited s = true /\ (waits s = [] -> child_status s = snd r)
  end.

(** The child is reaped once, the others are other processes. *)
Definition kin_inv (s : state) : Prop :=
  (child s = NoChild -> strays s = [] /\ reaped s = []) /\
  (forall st, In (pid s, st) (reaped s) -> child s = Reaped st) /\
  (forall r, In r (strays s) -> 0 < fst r /\ fst r <> pid s) /\
  (forall r, In r (reaped s) -> 0 < fst r).

(** The wait at line 161: what a successful one has stored, and when it
    can have been interrupted. *)
Definition wait_inv (s : state) : Prop :=
  (waits s = [pid s] ->
   (exists st, child s = Reaped st /\
               (reaped s = [] -> child_status s = st)) /\
   (forall st, ~ In (pid s, st) (reaped s))) /\
  (wait_signalled s = true ->
   at_pc s = AtWaitpid \/ reaped_by (at_pc s) = true).

Definition Kin (s : state) : Prop :=
  flag_inv s /\ kin_inv s /\ wait_inv s.

(** the handler has reaped no process but the child *)
Definition only_child_reaped (s : state) : bool :=
  forallb (fun r => fst r =? pid s) (reaped s).

(** [P] on the [n] integers from [z] on *)
Fixpoint all_from (P : Z -> bool) (n : nat) (z : Z) : bool :=
  match n with
  | O => true
  | S n' => P z && all_from P n' (z + 1)
  end.

(** *** The two streams *)

(** Where a chunk was read from. *)
Inductive source := FromStdin | FromMaster.

(** What the step a process at [s] makes on [e] reads, if it reads a byte. *)
Definition read_of (s : state) (e : event) : list (source * list byte) :=
  match at_pc s, e with
  | AtReadStdin, Ret_read (Got (c :: data)) => [(FromStdin, c :: data)]
  | AtReadMaster, Ret_read (Got (c :: data)) => [(FromMaster, c :: data)]
  | AtDrain, Ret_read (Got (c :: data)) => [(FromMaster, c :: data)]
  | _, _ => []
  end.

(** The chunks a run reads, in order. *)
Fixpoint reads_of (argv : list string) (env : environ) (es : list event)
    (s : state) : list (source * list byte) :=
  match es with
  | [] => []
  | e :: rest =>
      match step argv env s e with
      | Some s' => read_of s e ++ reads_of argv env rest s'
      | None => []
      end
  end.

(** What the relay is to write for a chunk read, [m] being the master. *)
Definition relayed (m : Z) (r : source * list byte) : Z * list byte :=
  match fst r with
  | FromStdin => (m, map lf_becomes_cr (snd r))
  | FromMaster => (STDOUT_FILENO, snd r)
  end.

(** ... a session up to and with the close of the master *)
Definition sample_to_close : list event :=
  sample_setup ++
  [Child_ends (Exited 3); Sigchld; Go; Ret_read (Failed 5); Go].

(** *** The loop *)

(** How many steps of [main] are at most left in the current iteration. *)
Definition loop_rank (p : pc) : nat :=
  match p with
  | AtPoll => 4
  | AtReadStdin => 3
  | AtReadMaster => 2
  | AtLoopTest => 1
  | _ => 0
  end.

(** the loop is behind *)
Definition past_loop (p : pc) : bool :=
  match p with
  | AtDrain | AtClose | AtRestore | AtReapTest | AtWaitpid | AtReturn
  | Returned _ => true
  | _ => false
  end.

(** events that are not steps of [main] *)
Definition is_async (e : event) : bool :=
  match e with
  | Child_ends _ | Sigchld | Stray_ends _ _ | Sigchld_stray _
  | Sigchld_raised => true
  | _ => false
  end.

(** the steps of [main] among [es] *)
Definition main_steps (es : list event) : nat :=
  List.length (filter (fun e => negb (is_async e)) es).

(** ... the child gone and the handler run while the relay is about to poll *)
Definition sample_flagged_at_poll : state :=
  Eval vm_compute in
    final (run [] sample_env
             (sample_setup ++ [Go; Child_ends (Exited 3); Sigchld])
             sample_start).

(** The child ends as [t] while the relay waits in poll: the handler runs,
    poll returns with EINTR, and the master has nothing left. *)
Definition exit_during_poll (t : termination) : list event :=
  [Child_ends t; Sigchld; Ret_poll (-1) EINTR 0 0; Go;
   Ret_read (Failed EAGAIN); Go; Go; Go; Go].

(** Stdin ends while the child is running: up to the wait at line 161 ... *)
Definition stdin_eof : list event :=
  [Ret_poll 1 0 POLLIN 0; Ret_read (Got []); Ret_read (Failed EIO);
   Go; Go; Go].

(** ... and from there, once the child has ended as [t] *)
Definition child_ends_in_wait (t : termination) (stale : Z) : list event :=
  [Child_ends t; Ret_waitpid stale; Go].

(** ... or once a handler has run: another process sends SIGCHLD *)
Definition signalled_in_wait (stale : Z) : list event :=
  [Sigchld_raised; Sigchld; Wait_interrupted stale; Go].

(** ... the relay about to poll, the child running *)
Definition sample_at_poll : state :=
  Eval vm_compute in
    final (run [] sample_env (sample_setup ++ [Go]) sample_start).

(** between the switch to raw mode and the restore *)
Definition in_session (p : pc) : bool :=
  match p with
  | AtFcntl | AtLoopTest | AtPoll | AtReadStdin | AtReadMaster | AtDrain
  | AtClose | AtRestore => true
  | _ => false
  end.

(** While the session lasts a console that takes mode changes is in raw
    mode. *)
Definition raw_inv (s : state) : Prop :=
  in_session (at_pc s) = true ->
  have_orig s = true ->
  console_settable s = true ->
  console s = Some (cfmakeraw (orig_termios s)).

(** The size of the PTY is the one it was allocated with. *)
Definition size_inv (env : environ) (s : state) : Prop :=
  pty_size s = if has_child s then Some (initial_winsize env) else None.

(** *** The shim and the terminal under it *)

(** TIOCGWINSZ as a terminal of size [size] answers it; any other request
    is refused here. *)
Definition tty_ioctl (size : winsize) (fd request : Z) (arg : winsize)
    : Z * winsize :=
  if request =? TIOCGWINSZ then (0, size) else (-1, arg).

(** *** Proof steps used throughout *)

Ltac split_ifs :=
  repeat match goal with
    | H : context [if ?c then _ else _] |- _ => destruct c eqn:?
    | H : context [match ?c with Some _ => _ | None => _ end] |- _ =>
        destruct c eqn:?
    end.

Ltac inv_some :=
  match goal with
  | H : Some _ = Some _ |- _ => inversion H; subst; clear H
  end.

Ltac z_tests :=
  repeat match goal with
    | H : (_ <? _) = true |- _ => apply Z.ltb_lt in H
    | H : (_ <? _) = false |- _ => apply Z.ltb_ge in H
    | H : (_ =? _) = true |- _ => apply Z.eqb_eq in H
    | H : (_ =? _) = false |- _ => apply Z.eqb_neq in H
    end.

Ltac break_hyps :=
  repeat match goal with
    | H : ?a = ?a -> _ |- _ => specialize (H eq_refl)
    | H : _ /\ _ |- _ => destruct H
    | H : exists _, _ |- _ => destruct H
    | H : Reaped _ = Reaped _ |- _ => injection H as H
    | H : Zombie _ = Reaped _ |- _ => discriminate H
    end.

Ltac leaf :=
  first [ reflexivity | assumption | lia | discriminate | congruence
        | solve [intuition (try congruence; try lia)]
        | solve [eexists; intuition (try congruence; try lia)]
        | solve [intros; eexists; intuition (try congruence; try lia)] ].

Ltac solve_inv := solve [repeat split; leaf].

Ltac kin_split :=
  match goal with
  | HK : Kin _ |- _ =>
      let HF := fresh "HF" in
      let K0 := fresh "K0" in
      let K1 := fresh "K1" in
      let K2 := fresh "K2" in
      let K3 := fresh "K3" in
      let W1 := fresh "W1" in
      let W2 := fresh "W2" in
      destruct HK as (HF & (K0 & K1 & K2 & K3) & (W1 & W2));
      unfold flag_inv, kin_inv, wait_inv in HF, K0, K1, K2, K3, W1, W2;
      cbn in HF, K0, K1, K2, K3, W1, W2
  end.

(** ** The two directions of the relay *)

Lemma lf_to_cr_prefix (data rest : list byte) :
  lf_to_cr (List.length data) (data ++ rest) = map lf_becomes_cr data ++ rest.
Proof.
  induction data as [|c data IH]; simpl.
  - destruct rest; reflexivity.
  - unfold lf_becomes_cr at 1. now rewrite IH.
Qed.

Lemma firstn_prefix {A} (n : nat) (l rest : list A) :
  n = List.length l -> firstn n (l ++ rest) = l.
Proof.
  intros ->. induction l as [|a l IH]; simpl.
  - reflexivity.
  - now rewrite IH.
Qed.

Lemma lf_becomes_cr_other (c : byte) : c <> x0a -> lf_becomes_cr c = c.
Proof.
  intros Hc. unfold lf_becomes_cr.
  destruct (Byte.eqb c x0a) eqn:E; [|reflexivity].
  apply Byte.byte_dec_bl in E. contradiction.
Qed.

Lemma nonempty_length_pos {A} (l : list A) :
  l <> [] -> (Z.of_nat (List.length l) <=? 0) = false.
Proof.
  intros Hl. destruct l as [|a l]; [contradiction|].
  apply Z.leb_gt. simpl List.length. lia.
Qed.

Lemma valid_read_got (data : list byte) :
  (List.length data <= BUFSIZE)%nat -> valid_read (Got data) = true.
Proof. intros H. now apply Nat.leb_le. Qed.

(** C1: in the running state a chunk read from stdin reaches the PTY
    master with every line feed (0x0a) replaced by a carriage return
    (0x0d) and every other byte, carriage returns included, as it was:
    same length, same order, byte by byte, whatever [buf] held before. *)
Theorem C1_stdin_chunk_lf_to_cr :
  forall argv env s data,
    at_pc s = AtReadStdin ->
    data <> [] ->
    (List.length data <= BUFSIZE)%nat ->
    exists s',
      step argv env s (Ret_read (Got data)) = Some s' /\
      written s' = written s ++ [(master s, map lf_becomes_cr data)] /\
      List.length (map lf_becomes_cr data) = List.length data /\
      (forall i c, nth_error data i = Some c ->
         nth_error (map lf_becomes_cr data) i
         = Some (if Byte.byte_eq_dec c x0a then x0d else c)) /\
      lf_becomes_cr x0a = x0d /\
      lf_becomes_cr x0d = x0d /\
      (forall c, c <> x0a -> lf_becomes_cr c = c).
Proof.
  intros argv env s data Hpc Hne Hlen.
  unfold step, main_step. rewrite Hpc. cbn [halted].
  rewrite (valid_read_got data Hlen). cbn [read].
  rewrite (nonempty_length_pos data Hne).
  eexists. split; [reflexivity|].
  split.
  { destruct s; cbn.
    rewrite Nat2Z.id, lf_to_cr_prefix.
    rewrite firstn_prefix by (symmetry; apply length_map). reflexivity. }
  split; [apply length_map|].
  split.
  { intros i c Hi. rewrite nth_error_map, Hi. cbn.
    unfold lf_becomes_cr.
    destruct (Byte.byte_eq_dec c x0a) as [->|Hc]; [reflexivity|].
    destruct (Byte.eqb c x0a) eqn:E; [|reflexivity].
    apply Byte.byte_dec_bl in E. contradiction. }
  split; [reflexivity|]. split; [reflexivity|].
  exact lf_becomes_cr_other.
Qed.

Lemma C1_stdin_chunk_lf_to_cr_witness :
  at_pc sample_at_stdin = AtReadStdin /\
  exists s',
    step [] sample_env sample_at_stdin (Ret_read (Got [x6c; x73; x0a; x0d]))
    = Some s' /\
    written s' = [(3, [x6c; x73; x0d; x0d])].
Proof.
  split; [reflexivity|].
  destruct (C1_stdin_chunk_lf_to_cr [] sample_env sample_at_stdin
              [x6c; x73; x0a; x0d] eq_refl
              ltac:(discriminate)
              ltac:(apply Nat.leb_le; reflexivity))
    as (s' & Hstep & Hw & _).
  exists s'. split; [exact Hstep | exact Hw].
Defined.

(** C4: a chunk read from the PTY master is written to stdout as it is,
    in the running state and while draining alike. *)
Theorem C4_master_chunk_unchanged :
  forall argv env s data,
    at_pc s = AtReadMaster \/ at_pc s = AtDrain ->
    data <> [] ->
    (List.length data <= BUFSIZE)%nat ->
    exists s',
      step argv env s (Ret_read (Got data)) = Some s' /\
      written s' = written s ++ [(STDOUT_FILENO, data)].
Proof.
  intros argv env s data Hpc Hne Hlen.
  pose proof (nonempty_length_pos data Hne) as Hpos.
  assert (Hgt : (Z.of_nat (List.length data) >? 0) = true).
  { apply Z.leb_gt in Hpos. apply Z.gtb_lt. lia. }
  unfold step, main_step.
  destruct Hpc as [Hpc|Hpc]; rewrite Hpc; cbn [halted];
    rewrite (valid_read_got data Hlen); cbn [read];
    rewrite ?Hpos, ?Hgt;
    (eexists; split; [reflexivity|]);
    destruct s; cbn;
    rewrite Nat2Z.id, firstn_prefix by reflexivity; reflexivity.
Qed.

Lemma C4_master_chunk_unchanged_witness :
  (exists s',
     step [] sample_env sample_at_master (Ret_read (Got [x6f; x6b; x0a]))
     = Some s' /\
     written s' = [(1, [x6f; x6b; x0a])]) /\
  (exists s',
     step [] sample_env sample_at_drain (Ret_read (Got [x0a; x0d; x0a]))
     = Some s' /\
     written s' = [(1, [x0a; x0d; x0a])]).
Proof.
  split.
  - apply (C4_master_chunk_unchanged [] sample_env sample_at_master
             [x6f; x6b; x0a] (or_introl eq_refl)
             ltac:(discriminate)
             ltac:(apply Nat.leb_le; reflexivity)).
  - apply (C4_master_chunk_unchanged [] sample_env sample_at_drain
             [x0a; x0d; x0a] (or_intror eq_refl)
             ltac:(discriminate)
             ltac:(apply Nat.leb_le; reflexivity)).
Defined.

(** ** Runs and invariants *)

Lemma run_invariant argv env (P : state -> Prop) :
  (forall s e s', P s -> step argv env s e = Some s' -> P s') ->
  forall es s s', P s -> run argv env es s = Some s' -> P s'.
Proof.
  intros Hstep es. induction es as [|e es IH]; intros s s' Hs Hrun; simpl in Hrun.
  - now inversion Hrun; subst.
  - destruct (step argv env s e) as [s1|] eqn:E; [|discriminate].
    eapply IH; [|exact Hrun]. eapply Hstep; eassumption.
Qed.

Lemma init_inv cons settable stack : Inv cons (init cons settable stack).
Proof. cbv. repeat split. Qed.

(** The handler and the events of the system leave alone what the
    invariant of [main] is about, but for the flag, which they only set. *)
Lemma handler_frame pick s :
  same_but_child_record s (sigchld_handler pick s).
Proof.
  unfold sigchld_handler, waitpid_any, reap_child, reap_stray.
  destruct pick as [k|]; [|destruct (child s)].
  all: repeat match goal with
         | |- context [nth_error ?l ?k] => destruct (nth_error l k)
         end.
  all: cbn.
  all: repeat match goal with
         | |- context [if ?c then _ else _] => destruct c; cbn
         end.
  all: repeat split.
Qed.

(** What the handler does to the descendants and to the flag. *)
Lemma handler_kin pick s :
  has_child (sigchld_handler pick s) = has_child s /\
  (child_exited s = true -> child_exited (sigchld_handler pick s) = true) /\
  (strays s = [] -> has_child s = false ->
   child_exited (sigchld_handler pick s) = child_exited s /\
   strays (sigchld_handler pick s) = []).
Proof.
  unfold sigchld_handler, waitpid_any, reap_child, reap_stray, has_child.
  destruct pick as [k|]; [|destruct (child s) eqn:Ec].
  all: repeat match goal with
         | |- context [nth_error ?l ?k] => destruct (nth_error l k) eqn:?
         end.
  all: cbn.
  all: repeat match goal with
         | |- context [if ?c then _ else _] => destruct c; cbn
         end.
  all: try rewrite Ec.
  all: repeat split; intros; try congruence.
  all: match goal with
       | H : strays ?s0 = [], E : nth_error (strays ?s0) ?k = Some _ |- _ =>
           rewrite H in E; destruct k; discriminate E
       end.
Qed.

Lemma inv_frame cons s s' :
  Inv cons s ->
  halted (at_pc s) = false ->
  same_but_child_record s s' ->
  has_child s' = has_child s ->
  (child_exited s = true -> child_exited s' = true) ->
  (has_child s = false ->
   child_exited s' = child_exited s /\ strays s' = strays s) ->
  Inv cons s'.
Proof.
  intros HI Hh HF Hc He Hn.
  destruct s as [p ce cs pd ms ho ot bf r0 r1 co cset ch pend psz mf wr cl rs wt sy rp wsig].
  destruct s' as [p' ce' cs' pd' ms' ho' ot' bf' r0' r1' co' cset' ch' pend' psz' mf' wr' cl' rs' wt' sy' rp' wsig'].
  unfold same_but_child_record in HF; cbn in HF.
  break_hyps; subst.
  unfold Inv, fresh, parent_inv, has_child in *; cbn in *.
  destruct p; cbn in *; try discriminate Hh.
  all: destruct ch; destruct ch'; try discriminate Hc.
  all: try (destruct (Hn eq_refl) as [-> ->]); clear Hn.
  all: break_hyps; subst; try discriminate.
  all: try solve_inv.
  all: try (right; solve_inv).
  all: try (left; solve_inv).
Qed.

Lemma note_signal_frame s :
  same_but_child_record s (note_signal s) /\
  has_child (note_signal s) = has_child s /\
  child_exited (note_signal s) = child_exited s /\
  child_status (note_signal s) = child_status s /\
  child (note_signal s) = child s /\
  strays (note_signal s) = strays s /\
  reaped (note_signal s) = reaped s /\
  sigchld_pending (note_signal s) = sigchld_pending s.
Proof.
  unfold note_signal, same_but_child_record, has_child.
  destruct (at_pc s) eqn:E; cbn; rewrite ?E; repeat split.
Qed.

Lemma same_but_child_record_trans s1 s2 s3 :
  same_but_child_record s1 s2 -> same_but_child_record s2 s3 ->
  same_but_child_record s1 s3.
Proof.
  unfold same_but_child_record. intros H1 H2.
  break_hyps. repeat split; congruence.
Qed.

Lemma set_pending_frame b s : same_but_child_record s (set_pending b s).
Proof. repeat split. Qed.

Lemma deliver_frame pick s :
  same_but_child_record s (deliver pick s) /\
  has_child (deliver pick s) = has_child s /\
  (child_exited s = true -> child_exited (deliver pick s) = true) /\
  (strays s = [] -> has_child s = false ->
   child_exited (deliver pick s) = child_exited s /\
   strays (deliver pick s) = []).
Proof.
  unfold deliver.
  pose proof (note_signal_frame (sigchld_handler pick (set_pending false s)))
    as (N1 & N2 & N3 & N4 & N5 & N6 & N7 & N8).
  pose proof (handler_frame pick (set_pending false s)) as F.
  pose proof (handler_kin pick (set_pending false s)) as (K1 & K2 & K3).
  split; [|split; [|split]].
  - eapply same_but_child_record_trans; [apply set_pending_frame|].
    eapply same_but_child_record_trans; eassumption.
  - rewrite N2, K1. reflexivity.
  - intros H. rewrite N3. apply K2. exact H.
  - intros H1 H2. rewrite N3, N6. apply K3; assumption.
Qed.

Lemma async_inv argv env cons s e s' :
  is_async e = true ->
  Inv cons s -> step argv env s e = Some s' -> Inv cons s'.
Proof.
  intros He HI Hs. unfold step in Hs.
  destruct (halted (at_pc s)) eqn:Hh; [discriminate|].
  assert (Hfresh : has_child s = false -> strays s = []).
  { intros Hn. unfold Inv, fresh, parent_inv in HI.
    destruct (at_pc s); try discriminate Hh; break_hyps;
      try assumption; congruence. }
  destruct e; try discriminate He; clear He.
  - (* the child ends *)
    destruct (child s) eqn:Ec; try discriminate.
    destruct (valid_termination t); [|discriminate].
    inv_some.
    apply (inv_frame cons s); auto.
    all: try solve [repeat split].
    all: try (unfold has_child; cbn; rewrite Ec; reflexivity).
    all: unfold has_child; rewrite Ec; discriminate.
  - (* the handler, the child first *)
    destruct (sigchld_pending s); [|discriminate]. inv_some.
    pose proof (deliver_frame None s) as (D1 & D2 & D3 & D4).
    apply (inv_frame cons s); auto.
    intros Hn. destruct (D4 (Hfresh Hn) Hn) as [E1 E2].
    split; [exact E1 | rewrite (Hfresh Hn); exact E2].
  - (* a stray ends *)
    destruct (child s) eqn:Ec; try discriminate.
    all: destruct (valid_termination t && (0 <? p) && negb (p =? pid s));
      [|discriminate].
    all: inv_some.
    all: apply (inv_frame cons s); auto.
    all: try solve [repeat split].
    all: try (unfold has_child; cbn; rewrite Ec; reflexivity).
    all: unfold has_child; rewrite Ec; discriminate.
  - (* the handler, a stray *)
    destruct (sigchld_pending s); [|discriminate].
    destruct (nth_error (strays s) k); [|discriminate]. inv_some.
    pose proof (deliver_frame (Some k) s) as (D1 & D2 & D3 & D4).
    apply (inv_frame cons s); auto.
    intros Hn. destruct (D4 (Hfresh Hn) Hn) as [E1 E2].
    split; [exact E1 | rewrite (Hfresh Hn); exact E2].
  - (* a signal from elsewhere *)
    inv_some.
    apply (inv_frame cons s); auto.
    all: repeat split.
Qed.

Lemma main_inv argv env cons s e s' :
  Inv cons s -> main_step argv env s e = Some s' -> Inv cons s'.
Proof.
  intros HI Hs.
  destruct s as [p ce cs pd ms ho ot bf r0 r1 co cset ch pend psz mf wr cl rs wt sy rp wsig].
  unfold main_step in Hs; cbn in Hs.
  destruct p; destruct e; try discriminate; try destruct r; cbn in Hs.
  all: unfold Inv, fresh, parent_inv, has_child in HI; cbn in HI.
  all: unfold stdin_test, master_test, hup_test, read, write, tcsetattr, wait_and_store, waitpid in Hs;
       cbn in Hs.
  all: try (destruct ch; try discriminate; cbn in Hs).
  all: split_ifs; try discriminate; try inv_some.
  all: unfold Inv, fresh, parent_inv, has_child; cbn.
  all: try (is_var ce; destruct ce).
  all: break_hyps; subst; cbn in *; try discriminate.
  all: z_tests.
  all: try solve_inv.
  all: try (right; solve_inv).
  all: try (left; solve_inv).
Qed.

Lemma step_inv argv env cons s e s' :
  Inv cons s -> step argv env s e = Some s' -> Inv cons s'.
Proof.
  intros HI Hs.
  destruct (is_async e) eqn:He.
  - eapply async_inv; eassumption.
  - unfold step in Hs.
    destruct (halted (at_pc s)); [discriminate|].
    destruct e; try discriminate He; eapply main_inv; eassumption.
Qed.

(** Every state a run from the start reaches satisfies the invariant. *)
Lemma run_inv argv env cons settable stack es s :
  run argv env es (init cons settable stack) = Some s -> Inv cons s.
Proof.
  apply (run_invariant argv env (Inv cons)).
  - intros s0 e s1. apply step_inv.
  - apply init_inv.
Qed.

Lemma init_kin cons settable stack : Kin (init cons settable stack).
Proof.
  unfold Kin, flag_inv, kin_inv, wait_inv; cbn.
  repeat split; intros; try contradiction; try discriminate.
Qed.

Lemma in_remove_nth {A} (k : nat) (l : list A) (x : A) :
  In x (remove_nth k l) -> In x l.
Proof.
  unfold remove_nth. intros H. apply in_app_or in H. destruct H as [H|H].
  - rewrite <- (firstn_skipn k l). apply in_or_app. left. exact H.
  - rewrite <- (firstn_skipn (S k) l). apply in_or_app. right. exact H.
Qed.

(** What a reap by the handler changes. *)
Lemma reap_kin pick s r :
  0 < pid s -> Kin s ->
  waitpid_any pick s = Some r ->
  0 < reap_pid r /\
  Kin (set_child_record true (reap_status r) (reap_after r)).
Proof.
  intros Hp (HF & (K0 & K1 & K2 & K3) & (W1 & W2)) Hr.
  unfold waitpid_any, reap_child, reap_stray in Hr.
  assert (Hstray : forall k, 
    match nth_error (strays s) k with
    | Some ps =>
      Some (mk_reap (fst ps) (snd ps)
              (log_reap (fst ps) (snd ps)
                 (set_strays (remove_nth k (strays s)) s)))
    | None => None
    end = Some r ->
    0 < reap_pid r /\
    Kin (set_child_record true (reap_status r) (reap_after r))).
  { clear Hr. intros k Hr.
    destruct (nth_error (strays s) k) as [[q st]|] eqn:E; [|discriminate].
    inv_some. cbn.
    apply nth_error_In in E. destruct (K2 _ E) as [Q1 Q2]. cbn in Q1, Q2.
    split; [exact Q1|].
    unfold Kin, flag_inv, kin_inv, wait_inv; cbn.
    repeat split; auto.
    - destruct (K0 H) as [E1 _]. rewrite E1 in E. destruct E.
    - destruct (K0 H) as [E1 _]. rewrite E1 in E. destruct E.
    - intros st0 [H|H]; [congruence | auto].
    - apply K2. eapply in_remove_nth; eassumption.
    - apply K2. eapply in_remove_nth; eassumption.
    - intros r0 [<-|H]; [exact Q1 | auto].
    - destruct (W1 H) as [(st0 & H1 & H2) H3]. exists st0. split; [exact H1|].
      discriminate.
    - destruct (W1 H) as [_ H3]. intros st0 [H0|H0]; [congruence|].
      eapply H3; eassumption. }
  destruct pick as [k|]; [apply (Hstray k); exact Hr|].
  destruct (child s) eqn:Ec; try (apply (Hstray 0%nat); exact Hr).
  inv_some. cbn. split; [exact Hp|].
  unfold Kin, flag_inv, kin_inv, wait_inv; cbn.
  repeat split; auto.
  - discriminate.
  - discriminate.
  - intros st [H|H]; [congruence|]. specialize (K1 _ H). discriminate.
  - apply K2; assumption.
  - apply K2; assumption.
  - intros r0 [<-|H]; [exact Hp | auto].
  - destruct (W1 H) as [(st0 & H1 & _) _]. discriminate.
  - destruct (W1 H) as [(st0 & H1 & _) _]. discriminate.
Qed.

Lemma handler_kin_inv pick s :
  (has_child s = true -> 0 < pid s) ->
  Kin s -> Kin (sigchld_handler pick s).
Proof.
  intros Hp HK. unfold sigchld_handler.
  destruct (waitpid_any pick s) as [r|] eqn:E; [|exact HK].
  assert (Hpid : 0 < pid s).
  { apply Hp. unfold has_child. destruct (child s) eqn:Ec; try reflexivity.
    destruct HK as (_ & (K0 & _) & _). destruct (K0 Ec) as [E1 _].
    unfold waitpid_any, reap_child, reap_stray in E.
    rewrite Ec, E1 in E. destruct pick as [[|k]|]; discriminate E. }
  destruct (reap_kin pick s r Hpid HK E) as [H1 H2].
  replace (reap_pid r >? 0) with true by (symmetry; apply Z.gtb_lt; exact H1).
  exact H2.
Qed.

Lemma deliver_kin pick s :
  (has_child s = true -> 0 < pid s) ->
  Kin s -> Kin (deliver pick s).
Proof.
  intros Hp HK. unfold deliver.
  assert (H : Kin (sigchld_handler pick (set_pending false s))).
  { apply handler_kin_inv; [exact Hp | exact HK]. }
  revert H. generalize (sigchld_handler pick (set_pending false s)).
  intros s0 H.
  unfold note_signal. destruct (at_pc s0) eqn:Epc; try exact H.
  destruct H as (HF & (K0 & K1 & K2 & K3) & (W1 & W2)).
  unfold Kin, flag_inv, kin_inv, wait_inv in *; cbn.
  repeat split; auto.
  all: try (apply K0; assumption).
  all: try (apply K2; assumption).
  all: apply W1; assumption.
Qed.

Lemma main_kin argv env cons s e s' :
  Inv cons s -> Kin s -> main_step argv env s e = Some s' -> Kin s'.
Proof.
  intros HI HK Hs.
  destruct s as [p ce cs pd ms ho ot bf r0 r1 co cset ch pend psz mf wr cl rs wt sy rp wsig].
  unfold main_step in Hs; cbn in Hs.
  destruct p; destruct e; try discriminate; try destruct r; cbn in Hs.
  all: unfold Inv, fresh, parent_inv, has_child in HI; cbn in HI.
  all: unfold stdin_test, master_test, hup_test, read, write, tcsetattr, wait_and_store, waitpid in Hs;
       cbn in Hs.
  all: try (destruct ch; try discriminate; cbn in Hs).
  all: split_ifs; try discriminate; try inv_some.
  all: kin_split.
  all: break_hyps; subst; try discriminate.
  all: try (destruct (K0 eq_refl) as [_ ->]).
  all: z_tests.
  all: unfold Kin, flag_inv, kin_inv, wait_inv; cbn.
  all: try solve [repeat split; auto;
                  try (apply K0; assumption); try (apply K2; assumption);
                  try (apply W1; assumption);
                  intros Hw; destruct (W2 Hw) as [D|D];
                  first [discriminate D | left; reflexivity | right; reflexivity]].
  all: try solve [repeat split; intros; cbn in *;
                  first [contradiction | discriminate | congruence | lia
                        | match goal with
                          | H : ?w = true, W : ?w = true -> _ |- _ =>
                              destruct (W H) as [D|D]; discriminate D
                          end ]].
  all: split; [|split; [|split]].
  all: try solve [destruct rp; [exact HF | destruct HF; split; [assumption|discriminate]]].
  all: try solve [intros _; right; reflexivity].
  all: try solve [intros Hw; injection Hw as Hw; lia].
  all: try solve [repeat split; intros; first
         [ discriminate | apply K1; assumption | apply K2; assumption
         | apply K3; assumption
         | match goal with
           | H : In _ _ |- _ => specialize (K1 _ H); discriminate K1
           end ]].
  all: intros _; split; [exists status; split; [reflexivity|reflexivity]|].
  all: intros st Hin; specialize (K1 _ Hin); discriminate K1.
Qed.

Lemma inv_pid cons s :
  Inv cons s -> has_child s = true -> 0 < pid s.
Proof.
  unfold Inv, fresh, parent_inv, has_child.
  intros HI Hc.
  destruct (at_pc s); try destruct HI as [HI|HI]; break_hyps; try assumption.
  all: match goal with H : child _ = NoChild |- _ => rewrite H in Hc end.
  all: discriminate Hc.
Qed.

Lemma step_kin argv env cons s e s' :
  Inv cons s -> Kin s -> step argv env s e = Some s' -> Kin s'.
Proof.
  intros HI HK Hs. unfold step in Hs.
  destruct (halted (at_pc s)) eqn:Hh; [discriminate|].
  pose proof (inv_pid cons s HI) as Hp.
  destruct e.
  6-14: eapply main_kin; eassumption.
  - (* the child ends *)
    destruct (child s) eqn:Ec; try discriminate.
    destruct (valid_termination t); [|discriminate].
    inv_some.
    destruct HK as (HF & (K0 & K1 & K2 & K3) & (W1 & W2)).
    unfold Kin, flag_inv, kin_inv, wait_inv in *; cbn.
    rewrite Ec in *.
    repeat split; auto; try discriminate.
    all: try (apply K2; assumption).
    + intros st Hin. specialize (K1 _ Hin). discriminate K1.
    + destruct (W1 H) as [(st & D & _) _]. discriminate D.
    + destruct (W1 H) as [(st & D & _) _]. discriminate D.
  - destruct (sigchld_pending s); [|discriminate]. inv_some.
    apply deliver_kin; assumption.
  - (* a stray ends *)
    assert (Hc : has_child s = true).
    { unfold has_child. destruct (child s); [discriminate|reflexivity..]. }
    assert (Hs' :
      (if valid_termination t && (0 <? p) && negb (p =? pid s)
       then Some (set_pending true
                    (set_strays (strays s ++ [(p, wait_status t)]) s))
       else None) = Some s').
    { destruct (child s); [discriminate|exact Hs..]. }
    clear Hs.
    destruct (valid_termination t); [|discriminate].
    destruct (0 <? p) eqn:E1; [|discriminate].
    destruct (p =? pid s) eqn:E2; [discriminate|].
    cbn in Hs'. inv_some. z_tests.
    destruct HK as (HF & (K0 & K1 & K2 & K3) & (W1 & W2)).
    unfold Kin, flag_inv, kin_inv, wait_inv in *; cbn.
    repeat split; auto.
    all: try (unfold has_child in Hc;
              match goal with
              | H : child _ = NoChild |- _ => rewrite H in Hc; discriminate Hc
              end).
    all: try (apply W1; assumption).
    all: match goal with
         | H : In _ (_ ++ _) |- _ =>
             apply in_app_or in H; destruct H as [H|[<-|[]]]; cbn;
             first [apply K2; assumption | assumption]
         end.
  - destruct (sigchld_pending s); [|discriminate].
    destruct (nth_error (strays s) k); [|discriminate]. inv_some.
    apply deliver_kin; assumption.
  - inv_some. exact HK.
Qed.

(** Every state a run from the start reaches satisfies both invariants. *)
Lemma run_kin argv env cons settable stack es s :
  run argv env es (init cons settable stack) = Some s ->
  Inv cons s /\ Kin s.
Proof.
  apply (run_invariant argv env (fun s => Inv cons s /\ Kin s)).
  - intros s0 e s1 [HI HK] Hs. split.
    + eapply step_inv; eassumption.
    + eapply step_kin; eassumption.
  - split; [apply init_inv | apply init_kin].
Qed.



(** A step is one of the system around the process, which leaves the
    program's own state alone but for the flag and the status word, or one
    of [main]. *)
Lemma step_cases argv env s e s' :
  step argv env s e = Some s' ->
  halted (at_pc s) = false /\
  (is_async e = true /\ same_but_child_record s s' \/
   is_async e = false /\ main_step argv env s e = Some s').
Proof.
  intros Hs. unfold step in Hs.
  destruct (halted (at_pc s)); [discriminate|].
  split; [reflexivity|].
  destruct e; try (right; split; [reflexivity | exact Hs]); left;
    (split; [reflexivity|]).
  - destruct (child s); try discriminate.
    destruct (valid_termination t); [inv_some | discriminate].
    repeat split.
  - destruct (sigchld_pending s); [inv_some | discriminate].
    apply deliver_frame.
  - destruct (child s); try discriminate.
    all: destruct (valid_termination t && (0 <? p) && negb (p =? pid s));
      [inv_some | discriminate].
    all: repeat split.
  - destruct (sigchld_pending s); [|discriminate].
    destruct (nth_error (strays s) k); [inv_some | discriminate].
    apply deliver_frame.
  - inv_some. repeat split.
Qed.

Lemma async_has_child argv env s e s' :
  is_async e = true -> step argv env s e = Some s' ->
  has_child s' = has_child s.
Proof.
  intros Ha Hs. unfold step in Hs.
  destruct (halted (at_pc s)); [discriminate|].
  destruct e; try discriminate Ha.
  - unfold has_child. destruct (child s); try discriminate.
    destruct (valid_termination t); [inv_some | discriminate].
    reflexivity.
  - destruct (sigchld_pending s); [inv_some | discriminate].
    apply deliver_frame.
  - unfold has_child. destruct (child s) eqn:Ec; try discriminate.
    all: destruct (valid_termination t && (0 <? p) && negb (p =? pid s));
      [inv_some | discriminate].
    all: cbn; rewrite Ec; reflexivity.
  - destruct (sigchld_pending s); [|discriminate].
    destruct (nth_error (strays s) k); [inv_some | discriminate].
    apply deliver_frame.
  - inv_some. reflexivity.
Qed.
(** ** Teardown *)

(** C3: when tcgetattr succeeded at startup, every run that gets through
    teardown has applied the captured attributes to the console exactly
    once, at lines 155-156 and nowhere before, and leaves the console with
    exactly these attributes; when it failed, nothing is ever restored. *)
Theorem C3_restore_exactly_once :
  forall argv env cons settable stack es s,
    run argv env es (init cons settable stack) = Some s ->
    has_child s = true ->
    (restored_by (at_pc s) = false -> restores s = []) /\
    (restored_by (at_pc s) = true ->
     match cons with
     | Some snapshot =>
         have_orig s = true /\ orig_termios s = snapshot /\
         restores s = [snapshot] /\ console s = Some snapshot
     | None =>
         have_orig s = false /\ restores s = [] /\ console s = None
     end).
Proof.
  intros argv env cons settable stack es s Hrun Hchild.
  pose proof (run_inv _ _ _ _ _ _ _ Hrun) as HI.
  unfold Inv, fresh, parent_inv in HI. unfold has_child in Hchild.
  assert (HP : 0 < pid s /\
               restores s = (if restored_by (at_pc s) && have_orig s
                             then [orig_termios s] else []) /\
               have_orig s = captured (at_pc s) && is_some cons /\
               (if have_orig s
                then cons = Some (orig_termios s) /\
                     (console s = Some (orig_termios s) \/
                      restored_by (at_pc s) = false /\
                      console_settable s = true /\
                      console s = Some (cfmakeraw (orig_termios s)))
                else console s = cons)).
  { destruct (at_pc s); break_hyps;
      try (rewrite H in Hchild; discriminate); try (repeat split; assumption).
    destruct HI as [HI|HI]; break_hyps;
      [rewrite H in Hchild; discriminate | repeat split; assumption]. }
  destruct HP as (_ & Hrs & Hho & Hco).
  split.
  - intros Hr. rewrite Hr in Hrs. exact Hrs.
  - intros Hr. rewrite Hr in Hrs, Hco.
    assert (Hcap : captured (at_pc s) = true)
      by (destruct (at_pc s); try discriminate; reflexivity).
    rewrite Hcap in Hho. cbn in Hho, Hrs.
    destruct cons as [snapshot|]; cbn in Hho; rewrite Hho in Hrs, Hco.
    + destruct Hco as (Hsnap & [Hc|(Hf & _)]); [|discriminate].
      injection Hsnap as Hsnap. rewrite <- Hsnap in *.
      repeat split; assumption.
    + repeat split; assumption.
Qed.

Lemma C3_restore_exactly_once_witness :
  at_pc sample_final = Returned 3 /\
  restores sample_final = [cooked] /\ console sample_final = Some cooked.
Proof.
  destruct (C3_restore_exactly_once [] sample_env (Some cooked) true
              sample_stack sample_session sample_final
              ltac:(vm_compute; reflexivity) eq_refl) as (_ & H).
  destruct (H eq_refl) as (_ & _ & Hr & Hc).
  split; [reflexivity|]. split; assumption.
Defined.

Lemma inv_parent cons s :
  Inv cons s -> has_child s = true ->
  parent_inv cons s /\
  (forall rc, at_pc s = Returned rc -> rc = exit_status (child_status s)).
Proof.
  unfold Inv, fresh, has_child. intros HI Hc.
  destruct (at_pc s) eqn:Hpc; break_hyps;
    try (rewrite H in Hc; discriminate);
    try (split; [assumption | intros rc' Hrc; discriminate]).
  destruct HI as [HI|HI]; break_hyps; [rewrite H in Hc; discriminate|].
  split; [assumption|]. intros rc' Hrc. injection Hrc as <-. assumption.
Qed.

Lemma inv_no_child cons s :
  Inv cons s -> has_child s = false ->
  fresh cons s /\
  (forall rc, at_pc s = Returned rc -> rc = 1 /\ pid s < 0).
Proof.
  unfold Inv, has_child. intros HI Hc.
  destruct (at_pc s) eqn:Hpc; break_hyps;
    try (rewrite Hc in *; discriminate);
    try (split; [assumption | intros rc' Hrc; discriminate]).
  destruct HI as [HI|HI]; break_hyps; [|rewrite Hc in *; discriminate].
  split; [assumption|]. intros rc' Hrc. injection Hrc as <-. now split.
Qed.

(** No step clears the exited flag. *)
Lemma exited_flag_kept argv env s e s' :
  step argv env s e = Some s' ->
  child_exited s = true -> child_exited s' = true.
Proof.
  intros Hs Hce. unfold step in Hs.
  destruct (halted (at_pc s)); [discriminate|].
  destruct e.
  1: destruct (child s); try discriminate;
     destruct (valid_termination t); [inv_some; exact Hce | discriminate].
  1: destruct (sigchld_pending s); [inv_some | discriminate];
     apply deliver_frame; exact Hce.
  1: destruct (child s); try discriminate;
     (destruct (valid_termination t && (0 <? p) && negb (p =? pid s));
      [inv_some; exact Hce | discriminate]).
  1: destruct (sigchld_pending s); [|discriminate];
     destruct (nth_error (strays s) k); [inv_some | discriminate];
     apply deliver_frame; exact Hce.
  1: inv_some; exact Hce.
  all: destruct s as [p ce cs pd ms ho ot bf r0 r1 co cset ch pend psz mf wr cl rs wt sy rp wsig].
  all: cbn in Hce; subst ce.
  all: unfold main_step in Hs; cbn in Hs;
    destruct p; try discriminate; try destruct r; cbn in Hs;
    unfold stdin_test, master_test, hup_test, read, write, tcsetattr, wait_and_store, waitpid in Hs;
    cbn in Hs;
    try (destruct ch; try discriminate; cbn in Hs);
    split_ifs; try discriminate; inv_some; reflexivity.
Qed.
(** ** The exit notification *)


(** ** Leaving the loop *)

Lemma loop_exits_to_drain argv env s e s' :
  in_loop (at_pc s) = true ->
  step argv env s e = Some s' ->
  in_loop (at_pc s') = true \/ at_pc s' = AtDrain.
Proof.
  intros Hl Hs.
  destruct (step_cases _ _ _ _ _ Hs) as (_ & [(_ & HF)|(_ & Hm)]).
  - left. destruct HF as (-> & _). exact Hl.
  - clear Hs.
    destruct s as [p ce cs pd ms ho ot bf r0 r1 co cset ch pend psz mf wr cl rs wt sy rp wsig].
    cbn in Hl.
    unfold main_step in Hm; cbn in Hm;
      destruct p; try discriminate; destruct e; try discriminate;
      try destruct r; cbn in Hm;
      unfold stdin_test, master_test, hup_test, read, write in Hm;
      cbn in Hm;
      split_ifs; try discriminate; inv_some; cbn; auto.
Qed.

Lemma drain_step argv env s r s' :
  at_pc s = AtDrain ->
  step argv env s (Ret_read r) = Some s' ->
  match r with
  | Got (c :: data) =>
      at_pc s' = AtDrain /\
      written s' = written s ++ [(STDOUT_FILENO, c :: data)]
  | _ => at_pc s' = AtClose /\ written s' = written s
  end /\ closes s' = closes s.
Proof.
  intros Hpc Hs. unfold step, main_step in Hs. rewrite Hpc in Hs.
  cbn [halted] in Hs.
  destruct (valid_read r); [|discriminate].
  destruct r as [[|c data]|errno]; cbn in Hs; inv_some.
  - now destruct s.
  - destruct s. cbn.
    rewrite SuccNat2Pos.id_succ. cbn [firstn].
    rewrite firstn_prefix by reflexivity. repeat split.
  - now destruct s.
Qed.

(** The master is closed at line 152 and nowhere else, whatever the
    descendants do. *)
Lemma master_closed_once argv env cons settable stack es s :
  run argv env es (init cons settable stack) = Some s ->
  has_child s = true ->
  closes s = if closed_by (at_pc s) then [master s] else [].
Proof.
  intros Hrun Hc.
  pose proof (run_inv _ _ _ _ _ _ _ Hrun) as HI.
  destruct (inv_parent _ _ HI Hc) as ((_ & Hcl & _) & _). exact Hcl.
Qed.

(** C8 does not hold: the relay can return with a descendant left behind.

    (1) A re-parented descendant ends while the child is running: the
    handler's [waitpid (-1)] reaps it and sets the flag, the loop ends,
    the test at line 159 finds the flag set and skips the wait; [main]
    returns, the master closed, with the child still running.
    (2) Stdin ends first, [main] waits for the child at line 161, the
    descendant ends and the handler runs: with no SA_RESTART the wait
    fails with EINTR, its result is not looked at, and [main] returns
    with the child still running.
    (3) The same when another process sends SIGCHLD and the handler finds
    nothing to reap.
    (4) The descendant and the child end before the handler runs: the one
    SIGCHLD makes the handler reap once, the child here; [main] returns
    and the descendant is still waiting to be reaped. *)
Theorem C8_return_leaves_descendants :
  (exists s,
     run [] sample_env stray_ends_in_loop sample_start = Some s /\
     at_pc s = Returned 0 /\ closes s = [3] /\
     waits s = [] /\ child s = Running) /\
  (exists s,
     run [] sample_env (stray_ends_in_wait 0) sample_start = Some s /\
     at_pc s = Returned 0 /\ closes s = [3] /\
     waits s = [-1] /\ child s = Running) /\
  (exists s,
     run [] sample_env (signal_in_wait 0) sample_start = Some s /\
     at_pc s = Returned 0 /\ closes s = [3] /\
     waits s = [-1] /\ reaped s = [] /\ child s = Running) /\
  (exists s,
     run [] sample_env two_end_one_signal sample_start = Some s /\
     at_pc s = Returned 3 /\ closes s = [3] /\
     child s = Reaped (wait_status (Exited 3)) /\
     strays s = [(9, wait_status (Exited 0))]).
Proof.
  repeat split; eexists; (split; [vm_compute; reflexivity|]);
    repeat split.
Qed.
(** ** The exit status *)

Lemma all_from_spec (P : Z -> bool) (n : nat) :
  forall z0, all_from P n z0 = true ->
  forall z, z0 <= z < z0 + Z.of_nat n -> P z = true.
Proof.
  induction n as [|n IH]; intros z0 Hall z Hz.
  - simpl in Hz. lia.
  - cbn [all_from] in Hall. apply andb_prop in Hall as (H0 & Hrest).
    destruct (Z.eq_dec z z0) as [->|Hne]; [exact H0|].
    apply (IH (z0 + 1) Hrest). lia.
Qed.

Lemma exit_status_exited (c : Z) :
  0 <= c <= 255 -> exit_status (wait_status (Exited c)) = c.
Proof.
  intros Hc. apply Z.eqb_eq.
  apply (all_from_spec
           (fun c => exit_status (wait_status (Exited c)) =? c) 256 0).
  - vm_compute. reflexivity.
  - simpl. lia.
Qed.

Lemma exit_status_signaled (sig : Z) (core : bool) :
  valid_termination (Signaled sig core) = true ->
  exit_status (wait_status (Signaled sig core)) = 1.
Proof.
  intros Hv. cbn in Hv. apply andb_prop in Hv as (Hlo & Hhi).
  apply Z.leb_le in Hlo, Hhi.
  assert (H : ((sig <? 1)
               || ((exit_status (wait_status (Signaled sig true)) =? 1)
                   && (exit_status (wait_status (Signaled sig false)) =? 1)))
              = true).
  { apply (all_from_spec
             (fun sig =>
                (sig <? 1)
                || ((exit_status (wait_status (Signaled sig true)) =? 1)
                    && (exit_status (wait_status (Signaled sig false)) =? 1)))
             65 0).
    - vm_compute. reflexivity.
    - simpl. lia. }
  apply orb_prop in H as [H|H].
  - apply Z.ltb_lt in H. lia.
  - apply andb_prop in H as (Ht & Hf). apply Z.eqb_eq in Ht, Hf.
    destruct core; assumption.
Qed.

Lemma only_child_reaped_spec s r :
  only_child_reaped s = true -> In r (reaped s) -> fst r = pid s.
Proof.
  unfold only_child_reaped. intros H Hin.
  rewrite forallb_forall in H. apply Z.eqb_eq. apply H. exact Hin.
Qed.

(** What a relay that returns after a successful forkpty returns. *)
Lemma returned_status argv env cons settable stack es s rc :
  run argv env es (init cons settable stack) = Some s ->
  at_pc s = Returned rc ->
  has_child s = true ->
  rc = exit_status (child_status s) /\
  (~ In (-1) (waits s) -> only_child_reaped s = true ->
   child s = Reaped (child_status s)).
Proof.
  intros Hrun Hpc Hc.
  destruct (run_kin _ _ _ _ _ _ _ Hrun) as [HI HK].
  destruct (inv_parent _ _ HI Hc) as ((_ & _ & _ & _ & _ & Hw) & Hrc).
  split; [apply Hrc, Hpc|].
  intros Hno Honly. rewrite Hpc in Hw. cbn in Hw.
  destruct HK as (HF & (K0 & K1 & K2 & K3) & (W1 & W2)).
  unfold flag_inv in HF.
  pose proof (only_child_reaped_spec s) as Hspec.
  specialize (fun r => Hspec r Honly). clear Honly. rename Hspec into Honly.
  destruct Hw as [(Hw & Hce)|[Hw|Hw]].
  - destruct (reaped s) as [|[p st] rest] eqn:Er; [congruence|].
    destruct HF as [_ HF]. specialize (HF Hw). cbn in HF.
    apply K1. rewrite HF.
    rewrite <- (Honly (p, st)) by (left; reflexivity). left. reflexivity.
  - destruct (W1 Hw) as [(st & Hst & Hcs) Hnot].
    rewrite Hst. f_equal. symmetry. apply Hcs.
    destruct (reaped s) as [|[p st'] rest] eqn:Er; [reflexivity|].
    exfalso. apply (Hnot st').
    rewrite <- (Honly (p, st')) by (left; reflexivity). left. reflexivity.
  - exfalso. apply Hno. rewrite Hw. now left.
Qed.

Lemma failed_forkpty argv env cons settable stack p m :
  p < 0 ->
  exists s,
    run argv env [Ret_forkpty p m] (init cons settable stack) = Some s /\
    at_pc s = Returned 1 /\ written s = [] /\ closes s = [] /\
    has_child s = false.
Proof.
  intros Hp. cbn. unfold step, main_step. cbn.
  replace (p <? 0) with true by (symmetry; apply Z.ltb_lt; exact Hp).
  eexists. split; [reflexivity|]. repeat split.
Qed.

(** What holds of the value returned: 1 when forkpty fails, before
    anything else is done; otherwise a function of [child_status] alone,
    the exit code (0-255) when that status is of a normal exit, 1 when it
    is of a death by signal.  [child_status] is the status the kernel
    reported for the child unless the wait at line 161 failed or the
    handler reaped another descendant. *)
Lemma exit_status_from_record :
  forall argv env cons settable stack,
    (forall p m, p < 0 ->
       exists s,
         run argv env [Ret_forkpty p m] (init cons settable stack) = Some s /\
         at_pc s = Returned 1 /\ written s = [] /\ closes s = [] /\
         has_child s = false) /\
    (forall es s rc,
       run argv env es (init cons settable stack) = Some s ->
       at_pc s = Returned rc ->
       (has_child s = false -> rc = 1 /\ pid s < 0 /\ written s = []) /\
       (has_child s = true ->
        rc = exit_status (child_status s) /\
        (forall c, 0 <= c <= 255 ->
           child_status s = wait_status (Exited c) -> rc = c) /\
        (forall sig core, valid_termination (Signaled sig core) = true ->
           child_status s = wait_status (Signaled sig core) -> rc = 1) /\
        (~ In (-1) (waits s) -> only_child_reaped s = true ->
         child s = Reaped (child_status s)))).
Proof.
  intros argv env cons settable stack. split.
  { intros p m. apply failed_forkpty. }
  intros es s rc Hrun Hpc. split.
  - intros Hc. pose proof (run_inv _ _ _ _ _ _ _ Hrun) as HI.
    destruct (inv_no_child _ _ HI Hc)
      as ((_ & _ & _ & Hw & _) & Hrc).
    destruct (Hrc _ Hpc) as (H1 & Hp). repeat split; assumption.
  - intros Hc.
    destruct (returned_status _ _ _ _ _ _ _ _ Hrun Hpc Hc) as (Hrc & Hk).
    split; [exact Hrc|]. split; [|split; [|exact Hk]].
    + intros c Hr Hcs. rewrite Hrc, Hcs. now apply exit_status_exited.
    + intros sig core Hv Hcs. rewrite Hrc, Hcs.
      now apply exit_status_signaled.
Qed.

Example exit_status_from_record_sample :
  at_pc sample_final = Returned 3 /\
  child sample_final = Reaped (wait_status (Exited 3)) /\
  3 = exit_status (child_status sample_final).
Proof.
  pose proof (proj2 (exit_status_from_record [] sample_env (Some cooked) true
                       sample_stack)
                sample_session sample_final 3
                ltac:(vm_compute; reflexivity) eq_refl) as (_ & H).
  destruct (H eq_refl) as (Hrc & _).
  split; [reflexivity|]. split; [reflexivity|exact Hrc].
Defined.

(** On the child side of the fork a failed exec ends in _exit (127); the
    status the kernel reports for that is one of a normal exit, so a relay
    that has this status in [child_status] returns 127, not 1. *)
Lemma exec_failure_status_127 :
  forall argv env cons settable stack,
    (forall m, exists s,
       run argv env [Ret_forkpty 0 m; Ret_exec_failed]
         (init cons settable stack) = Some s /\
       at_pc s = ChildExit 127) /\
    WIFEXITED (wait_status (Exited 127)) = true /\
    (forall es s rc,
       run argv env es (init cons settable stack) = Some s ->
       at_pc s = Returned rc ->
       has_child s = true ->
       (child_status s = wait_status (Exited 127) -> rc = 127 /\ rc <> 1) /\
       (child s = Reaped (wait_status (Exited 127)) ->
        ~ In (-1) (waits s) -> only_child_reaped s = true ->
        rc = 127 /\ rc <> 1)).
Proof.
  intros argv env cons settable stack. split.
  { intros m. eexists. split; reflexivity. }
  split; [reflexivity|].
  intros es s rc Hrun Hpc Hc.
  destruct (returned_status _ _ _ _ _ _ _ _ Hrun Hpc Hc) as (Hrc & Hk).
  assert (H127 : child_status s = wait_status (Exited 127) ->
                 rc = 127 /\ rc <> 1).
  { intros Hcs. rewrite Hrc, Hcs. split; [reflexivity|discriminate]. }
  split; [exact H127|].
  intros Hch Hno Honly. apply H127. specialize (Hk Hno Honly).
  rewrite Hch in Hk. now injection Hk as <-.
Qed.

Example exec_failure_status_127_sample :
  at_pc sample_final_127 = Returned 127 /\
  child sample_final_127 = Reaped (wait_status (Exited 127)) /\
  127 <> 1.
Proof.
  destruct (exec_failure_status_127 [] sample_env (Some cooked) true
              sample_stack) as (_ & _ & H).
  destruct (H sample_exec_failed sample_final_127 127
              ltac:(vm_compute; reflexivity) eq_refl eq_refl) as (H1 & _).
  destruct (H1 eq_refl) as (_ & Hne).
  split; [reflexivity|]. split; [reflexivity|exact Hne].
Defined.

(** ** Interrupted calls *)

(** C5, as the code has it: only the readiness wait is retried after
    EINTR, by going back to the loop test with nothing else changed (and
    from there to poll again unless the exited flag is now set).  A read
    from stdin that fails ends the loop whatever errno says, EINTR too; a
    read from the master that fails ends the loop unless errno is EAGAIN
    or EIO, so EINTR ends it as well. *)
Theorem C5_only_poll_is_retried :
  forall argv env s,
    (at_pc s = AtPoll ->
     forall ret rev0 rev1, ret < 0 ->
       step argv env s (Ret_poll ret EINTR rev0 rev1)
       = Some (set_pc AtLoopTest s)) /\
    (at_pc s = AtLoopTest -> child_exited s = false ->
     step argv env s Go = Some (set_pc AtPoll s)) /\
    (at_pc s = AtReadStdin ->
     forall errno,
       step argv env s (Ret_read (Failed errno)) = Some (set_pc AtDrain s)) /\
    (at_pc s = AtReadMaster ->
     forall errno, errno <> EAGAIN -> errno <> EIO ->
       step argv env s (Ret_read (Failed errno)) = Some (set_pc AtDrain s)) /\
    (at_pc s = AtReadMaster ->
     step argv env s (Ret_read (Failed EINTR)) = Some (set_pc AtDrain s)).
Proof.
  intros argv env s.
  assert (Hm : at_pc s = AtReadMaster ->
               forall errno, errno <> EAGAIN -> errno <> EIO ->
                 step argv env s (Ret_read (Failed errno))
                 = Some (set_pc AtDrain s)).
  { intros Hpc errno H1 H2. unfold step, main_step. rewrite Hpc. cbn.
    apply Z.eqb_neq in H1, H2. rewrite H1, H2. reflexivity. }
  repeat split.
  - intros Hpc ret rev0 rev1 Hret. unfold step, main_step. rewrite Hpc. cbn.
    replace (ret <? 0) with true by (symmetry; now apply Z.ltb_lt).
    reflexivity.
  - intros Hpc Hce. unfold step, main_step. rewrite Hpc, Hce. reflexivity.
  - intros Hpc errno. unfold step, main_step. rewrite Hpc. reflexivity.
  - exact Hm.
  - intros Hpc. apply Hm; [exact Hpc | discriminate | discriminate].
Qed.

Lemma C5_only_poll_is_retried_witness :
  step [] sample_env sample_at_stdin (Ret_read (Failed EINTR))
  = Some (set_pc AtDrain sample_at_stdin) /\
  step [] sample_env sample_at_master (Ret_read (Failed EINTR))
  = Some (set_pc AtDrain sample_at_master).
Proof.
  split.
  - destruct (C5_only_poll_is_retried [] sample_env sample_at_stdin)
      as (_ & _ & H & _).
    exact (H eq_refl EINTR).
  - destruct (C5_only_poll_is_retried [] sample_env sample_at_master)
      as (_ & _ & _ & _ & H).
    exact (H eq_refl).
Defined.

(** C5 as stated fails: poll reports stdin readable, the read is
    interrupted, and the relay is out of its loop, in the drain. *)
Lemma C5_counterexample :
  at_pc sample_at_stdin = AtReadStdin /\
  option_map at_pc
    (run [] sample_env
       (sample_setup ++ [Go; Ret_poll 1 0 1 0; Ret_read (Failed EINTR)])
       sample_start)
  = Some AtDrain /\
  in_loop AtDrain = false.
Proof. repeat split. Qed.

(** ** The size of the PTY *)

Lemma atoi_decimal (n : Z) : 0 <= n < 65536 -> atoi (decimal n) = n.
Proof.
  intros Hn. apply Z.eqb_eq.
  apply (all_from_spec (fun n => atoi (decimal n) =? n)
           (Z.to_nat 65536) 0).
  - vm_compute. reflexivity.
  - rewrite Z2Nat.id by lia. lia.
Qed.

Lemma atoi_no_number (s : string) : no_number s = true -> atoi s = 0.
Proof.
  unfold no_number, atoi, strtol10.
  destruct (skip_space s) as [|c rest]; [reflexivity|].
  destruct (Ascii.eqb c "-") eqn:Eminus; cbn [orb].
  - destruct rest as [|d rest]; [reflexivity|].
    intros Hd. apply negb_true_iff in Hd. cbn [read_digits].
    rewrite Hd. reflexivity.
  - destruct (Ascii.eqb c "+") eqn:Eplus.
    + destruct rest as [|d rest]; [reflexivity|].
      intros Hd. apply negb_true_iff in Hd. cbn [read_digits].
      rewrite Hd. reflexivity.
    + intros Hc. apply negb_true_iff in Hc. cbn [read_digits].
      rewrite Hc. reflexivity.
Qed.

(** C6, as the code has it: the PTY is allocated with the size computed
    at lines 45-49 and 60-63.  A dimension whose variable is absent is the
    default, 24 rows or 80 columns.  A dimension whose variable is set is
    atoi of the value, cut to an unsigned short: the number itself for a
    decimal numeral below 65536 (50 and 120 for the values 50 and 120),
    and 0, not the default, for a value with no number in it. *)
Theorem C6_pty_size_from_env :
  forall argv env cons settable stack p m,
    0 < p ->
    exists s,
      run argv env [Ret_forkpty p m] (init cons settable stack) = Some s /\
      pty_size s = Some (initial_winsize env) /\
      ws_row (initial_winsize env)
      = match getenv env "WRAPIX_TERM_ROWS" with
        | Some r => to_ushort (atoi r)
        | None => 24
        end /\
      ws_col (initial_winsize env)
      = match getenv env "WRAPIX_TERM_COLS" with
        | Some c => to_ushort (atoi c)
        | None => 80
        end /\
      (forall n, 0 <= n < 65536 ->
         getenv env "WRAPIX_TERM_ROWS" = Some (decimal n) ->
         ws_row (initial_winsize env) = n) /\
      (forall n, 0 <= n < 65536 ->
         getenv env "WRAPIX_TERM_COLS" = Some (decimal n) ->
         ws_col (initial_winsize env) = n) /\
      (forall r, getenv env "WRAPIX_TERM_ROWS" = Some r ->
         no_number r = true -> ws_row (initial_winsize env) = 0) /\
      (forall c, getenv env "WRAPIX_TERM_COLS" = Some c ->
         no_number c = true -> ws_col (initial_winsize env) = 0).
Proof.
  intros argv env cons settable stack p m Hp.
  assert (Hsmall : forall n, 0 <= n < 65536 -> to_ushort n = n).
  { intros n Hn. unfold to_ushort. apply Z.mod_small.
    change (2 ^ 16) with 65536. exact Hn. }
  eexists. split.
  { cbn. unfold step, main_step. cbn.
    replace (p <? 0) with false by (symmetry; apply Z.ltb_ge; lia).
    replace (p =? 0) with false by (symmetry; apply Z.eqb_neq; lia).
    reflexivity. }
  split; [reflexivity|].
  unfold initial_winsize, term_rows, term_cols. cbn [ws_row ws_col].
  split; [destruct (getenv env "WRAPIX_TERM_ROWS"); reflexivity|].
  split; [destruct (getenv env "WRAPIX_TERM_COLS"); reflexivity|].
  split; [|split; [|split]].
  - intros n Hn ->. rewrite (atoi_decimal n Hn). now apply Hsmall.
  - intros n Hn ->. rewrite (atoi_decimal n Hn). now apply Hsmall.
  - intros r -> Hr. now rewrite (atoi_no_number r Hr).
  - intros c -> Hc. now rewrite (atoi_no_number c Hc).
Qed.

Lemma C6_pty_size_from_env_witness :
  exists s,
    run [] sample_env [Ret_forkpty 7 3] sample_start = Some s /\
    pty_size s = Some (mk_winsize 50 120 0 0).
Proof.
  destruct (C6_pty_size_from_env [] sample_env (Some cooked) true
              sample_stack 7 3 ltac:(lia)) as (s & Hrun & Hsz & _).
  exists s. split; [exact Hrun | exact Hsz].
Defined.

(** C6 as stated fails: with the row variable set to a value that is not
    a number the PTY gets 0 rows, not 24. *)
Lemma C6_counterexample :
  no_number "abc" = true /\
  option_map pty_size
    (run [] [("WRAPIX_TERM_ROWS", "abc")]%string [Ret_forkpty 7 3]
       (init (Some cooked) true sample_stack))
  = Some (Some (mk_winsize 0 80 0 0)).
Proof. split; reflexivity. Qed.

(** ** The ioctl wrapper of the shim *)

(** C7, as the code has it: a request other than TIOCGWINSZ gives what
    the underlying ioctl gives, value and memory.  For TIOCGWINSZ the
    result is patched when the underlying call fails or reports 0 rows and
    0 columns: each dimension whose variable is set becomes atoi of the
    value cut to an unsigned short, the others and the pixel sizes stay,
    and 0 is returned; otherwise the underlying result is passed on. *)
Theorem C7_ioctl_wrapper :
  forall real_ioctl env fd request arg,
    let ret := fst (real_ioctl fd request arg) in
    let ws := snd (real_ioctl fd request arg) in
    let res := FakeUid.ioctl real_ioctl env fd request arg in
    (request <> TIOCGWINSZ -> res = real_ioctl fd request arg) /\
    (request = TIOCGWINSZ -> ret = 0 ->
     ~ (ws_row ws = 0 /\ ws_col ws = 0) ->
     res = real_ioctl fd request arg) /\
    (request = TIOCGWINSZ ->
     ret <> 0 \/ (ws_row ws = 0 /\ ws_col ws = 0) ->
     fst res = 0 /\
     ws_row (snd res)
     = match getenv env "WRAPIX_TERM_ROWS" with
       | Some r => to_ushort (atoi r)
       | None => ws_row ws
       end /\
     ws_col (snd res)
     = match getenv env "WRAPIX_TERM_COLS" with
       | Some c => to_ushort (atoi c)
       | None => ws_col ws
       end /\
     ws_xpixel (snd res) = ws_xpixel ws /\
     ws_ypixel (snd res) = ws_ypixel ws).
Proof.
  intros real_ioctl env fd request arg. cbv zeta.
  unfold FakeUid.ioctl.
  destruct (real_ioctl fd request arg) as [ret ws]. cbn [fst snd].
  split; [|split].
  - intros Hreq. apply Z.eqb_neq in Hreq. now rewrite Hreq.
  - intros -> -> Hnz. rewrite Z.eqb_refl. cbn [negb orb].
    destruct (ws_row ws =? 0) eqn:Er; [|reflexivity].
    destruct (ws_col ws =? 0) eqn:Ec; [|reflexivity].
    apply Z.eqb_eq in Er, Ec. exfalso. now apply Hnz.
  - intros -> Hpatch. rewrite Z.eqb_refl.
    assert (Hc : (negb (ret =? 0)
                  || ((ws_row ws =? 0) && (ws_col ws =? 0)))%bool = true).
    { destruct Hpatch as [Hret|(Hr & Hc)].
      - apply Z.eqb_neq in Hret. now rewrite Hret.
      - rewrite Hr, Hc. cbn. apply orb_true_r. }
    rewrite Hc.
    destruct (getenv env "WRAPIX_TERM_ROWS");
      destruct (getenv env "WRAPIX_TERM_COLS"); cbn; repeat split.
Qed.

Lemma C7_ioctl_wrapper_witness :
  FakeUid.ioctl failing_ioctl sample_env 0 21505 (mk_winsize 5 7 0 0)
  = (-1, mk_winsize 5 7 0 0) /\
  fst (FakeUid.ioctl (fun _ _ _ => (0, mk_winsize 0 0 0 0)) sample_env 1
         TIOCGWINSZ (mk_winsize 9 9 9 9)) = 0.
Proof.
  split.
  - exact (proj1 (C7_ioctl_wrapper failing_ioctl sample_env 0 21505
                    (mk_winsize 5 7 0 0)) ltac:(discriminate)).
  - destruct (C7_ioctl_wrapper (fun _ _ _ => (0, mk_winsize 0 0 0 0))
                sample_env 1 TIOCGWINSZ (mk_winsize 9 9 9 9))
      as (_ & _ & H).
    exact (proj1 (H eq_refl (or_intror (conj eq_refl eq_refl)))).
Defined.

(** C7 as stated fails: the underlying TIOCGWINSZ fails and the caller's
    memory says 5 rows, 7 columns, not 0 and 0; the wrapper reports
    success and 50 rows, 120 columns all the same. *)
Lemma C7_counterexample :
  failing_ioctl 0 TIOCGWINSZ (mk_winsize 5 7 0 0)
  = (-1, mk_winsize 5 7 0 0) /\
  FakeUid.ioctl failing_ioctl sample_env 0 TIOCGWINSZ (mk_winsize 5 7 0 0)
  = (0, mk_winsize 50 120 0 0).
Proof. split; reflexivity. Qed.

(** ** A SIGCHLD between the test at line 159 and the wait at line 161 *)

(** The handler stores the status only when its waitpid returned a
    process (line 37); lines 161-162 store [status] whatever waitpid
    returned.  When the handler reaps the child after the flag was read
    clear, the fallback wait fails and overwrites the status the handler
    recorded with the unset local. *)
Lemma late_sigchld_returns_stale (c stale : Z) :
  exists s,
    run [] sample_env (late_sigchld (Exited c) stale) sample_start = Some s /\
    child s = Reaped (wait_status (Exited c)) /\
    waits s = [-1] /\
    child_status s = stale /\
    at_pc s = Returned (exit_status stale).
Proof.
  eexists. split.
  - unfold late_sigchld, sample_setup, sample_start, init.
    cbv -[exit_status wait_status]. reflexivity.
  - repeat split.
Qed.

(** C2 fails on this interleaving: the child exits normally with code 0,
    the unset [status] holds 9, and the relay returns 1; or the child
    exits with code 3, [status] holds 0, and the relay returns 0. *)
Theorem C2_late_sigchld_wrong_exit_status :
  (exists s,
     run [] sample_env (late_sigchld (Exited 0) 9) sample_start = Some s /\
     child s = Reaped (wait_status (Exited 0)) /\
     at_pc s = Returned 1) /\
  (exists s,
     run [] sample_env (late_sigchld (Exited 3) 0) sample_start = Some s /\
     child s = Reaped (wait_status (Exited 3)) /\
     at_pc s = Returned 0).
Proof.
  split.
  - destruct (late_sigchld_returns_stale 0 9) as (s & Hrun & Hch & _ & _ & Hpc).
    exists s. repeat split; assumption.
  - destruct (late_sigchld_returns_stale 3 0) as (s & Hrun & Hch & _ & _ & Hpc).
    exists s. repeat split; assumption.
Qed.

(** C10 fails on the same interleaving: the child could not exec and left
    with 127, the unset [status] holds 9, and the relay returns the
    fallback 1. *)
Theorem C10_late_sigchld_hides_127 :
  (exists s,
     run [] sample_env [Ret_forkpty 0 3; Ret_exec_failed] sample_start
     = Some s /\
     at_pc s = ChildExit 127) /\
  (exists s,
     run [] sample_env (late_sigchld (Exited 127) 9) sample_start = Some s /\
     child s = Reaped (wait_status (Exited 127)) /\
     at_pc s = Returned 1).
Proof.
  split.
  - eexists. split; reflexivity.
  - destruct (late_sigchld_returns_stale 127 9)
      as (s & Hrun & Hch & _ & _ & Hpc).
    exists s. repeat split; assumption.
Qed.

(** ** The two streams, end to end *)

Lemma got_length_pos {A} (c : A) (data : list A) :
  Z.of_nat (List.length (c :: data)) = Z.pos (Pos.of_succ_nat (List.length data)).
Proof. reflexivity. Qed.

Lemma step_written argv env s e s' :
  at_pc s <> AtForkpty ->
  step argv env s e = Some s' ->
  at_pc s' <> AtForkpty /\
  master s' = master s /\
  written s' = written s ++ map (relayed (master s)) (read_of s e).
Proof.
  intros Hpc Hs.
  destruct (step_cases _ _ _ _ _ Hs) as (_ & [(Ha & HF)|(Ha & Hm)]).
  { assert (Hr : read_of s e = []).
    { unfold read_of. destruct e; try discriminate Ha;
        destruct (at_pc s); reflexivity. }
    rewrite Hr. cbn. rewrite app_nil_r.
    unfold same_but_child_record in HF. break_hyps.
    repeat split; congruence. }
  clear Hs. rename Hm into Hs.
  destruct s as [p ce cs pd ms ho ot bf r0 r1 co cset ch pend psz mf wr cl rs wt sy rp wsig].
  cbn in Hpc. unfold read_of. cbn [at_pc master written].
  destruct e; try discriminate Ha.
  all: unfold main_step in Hs; cbn in Hs;
    destruct p; try discriminate; try congruence.
  all: try (destruct r as [[|c data]|errno]; cbn in Hs).
  all: unfold stdin_test, master_test, hup_test, write, tcsetattr, wait_and_store, waitpid in Hs;
    cbn in Hs;
    try (destruct ch; try discriminate; cbn in Hs).
  all: split_ifs; try discriminate; inv_some; cbn.
  all: rewrite ?app_nil_r.
  all: try (repeat split; congruence).
  all: rewrite ?SuccNat2Pos.id_succ.
  all: match goal with
       | |- context [?c :: ?data ++ ?X] =>
           change (c :: data ++ X) with ((c :: data) ++ X);
           generalize X; intros rest;
           change (S (List.length data)) with (List.length (c :: data))
       end.
  all: rewrite ?lf_to_cr_prefix.
  all: rewrite firstn_prefix
         by (rewrite ?length_map; reflexivity).
  all: repeat split; congruence.
Qed.

Lemma run_written argv env es : forall s s',
  at_pc s <> AtForkpty ->
  run argv env es s = Some s' ->
  master s' = master s /\
  written s' = written s ++ map (relayed (master s)) (reads_of argv env es s).
Proof.
  induction es as [|e es IH]; intros s s' Hpc Hrun;
    cbn [run reads_of] in Hrun |- *.
  - inversion Hrun; subst. now rewrite app_nil_r.
  - destruct (step argv env s e) as [s1|] eqn:Hs; [|discriminate].
    destruct (step_written _ _ _ _ _ Hpc Hs) as (Hpc1 & Hm1 & Hw1).
    destruct (IH _ _ Hpc1 Hrun) as (Hm & Hw).
    split; [congruence|].
    rewrite Hw, Hw1, Hm1, map_app, app_assoc. reflexivity.
Qed.

(** Before forkpty returns nothing is read or written. *)
Lemma run_written_start argv env es : forall s s',
  at_pc s = AtForkpty -> written s = [] ->
  run argv env es s = Some s' ->
  written s' = map (relayed (master s')) (reads_of argv env es s).
Proof.
  induction es as [|e es IH]; intros s s' Hpc Hw Hrun;
    cbn [run reads_of] in Hrun |- *.
  - inversion Hrun; subst. rewrite Hw. reflexivity.
  - destruct (step argv env s e) as [s1|] eqn:Hs; [|discriminate].
    assert (Hr : read_of s e = []).
    { unfold read_of. rewrite Hpc. reflexivity. }
    rewrite Hr. cbn [app].
    destruct (step_cases _ _ _ _ _ Hs) as (_ & [(Ha & HF)|(Ha & Hm)]).
    + unfold same_but_child_record in HF. break_hyps.
      apply IH; [congruence | congruence | exact Hrun].
    + assert (H1 : at_pc s1 <> AtForkpty /\ written s1 = []).
      { unfold main_step in Hm. rewrite Hpc in Hm.
        destruct e; try discriminate Hm.
        split_ifs; inv_some; cbn; split; congruence. }
      destruct H1 as (Hpc1 & Hw1).
      destruct (run_written _ _ _ _ _ Hpc1 Hrun) as (Hm1 & Hw').
      rewrite Hw', Hw1, Hm1. reflexivity.
Qed.

(** The relay as a function on streams: what a run has handed to write, in
    order, is exactly what it read, chunk by chunk: a chunk from stdin goes
    to the master with its line feeds turned into carriage returns, a
    chunk from the master goes to stdout as it is.  Nothing is written
    that was not read, nothing read is left out or written twice. *)
Theorem relay_streams :
  forall argv env cons settable stack es s,
    run argv env es (init cons settable stack) = Some s ->
    written s
    = map (relayed (master s))
        (reads_of argv env es (init cons settable stack)).
Proof.
  intros argv env cons settable stack es s Hrun.
  apply (run_written_start argv env es (init cons settable stack) s);
    [reflexivity | reflexivity | exact Hrun].
Qed.

Lemma relay_streams_witness :
  written sample_final
  = [(3, [x6c; x73; x0d]); (1, [x6f; x6b; x0d; x0a]); (1, [x24])].
Proof.
  exact (relay_streams [] sample_env (Some cooked) true sample_stack
           sample_session sample_final ltac:(vm_compute; reflexivity)).
Defined.

(** ** What is written, and when *)

Lemma reads_of_bounded argv env es : forall s,
  Forall (fun r => snd r <> [] /\ (List.length (snd r) <= BUFSIZE)%nat)
    (reads_of argv env es s).
Proof.
  induction es as [|e es IH]; intros s; cbn [reads_of]; [constructor|].
  destruct (step argv env s e) as [s1|] eqn:Hs; [|constructor].
  apply Forall_app. split; [|apply IH].
  unfold read_of.
  destruct (at_pc s) eqn:Hpc; destruct e; try apply Forall_nil;
    destruct r as [[|c data]|errno]; try apply Forall_nil;
    (apply Forall_cons; [|apply Forall_nil]);
    cbn [snd]; (split; [discriminate|]);
    unfold step, main_step in Hs; rewrite Hpc in Hs; cbn [halted] in Hs;
    destruct (valid_read (Got (c :: data))) eqn:Hv; try discriminate;
    apply Nat.leb_le; exact Hv.
Qed.

(** Every write of a run is to the PTY master or to stdout, and of at
    least one and at most [sizeof (buf)] bytes. *)
Theorem writes_well_formed :
  forall argv env cons settable stack es s fd bytes,
    run argv env es (init cons settable stack) = Some s ->
    In (fd, bytes) (written s) ->
    (fd = master s \/ fd = STDOUT_FILENO) /\
    (1 <= List.length bytes <= BUFSIZE)%nat.
Proof.
  intros argv env cons settable stack es s fd bytes Hrun Hin.
  rewrite (relay_streams _ _ _ _ _ _ _ Hrun) in Hin.
  apply in_map_iff in Hin as ([src data] & Heq & Hin).
  pose proof (reads_of_bounded argv env es (init cons settable stack)) as Hb.
  rewrite Forall_forall in Hb. destruct (Hb _ Hin) as (Hne & Hlen).
  cbn [snd] in Hne, Hlen.
  unfold relayed in Heq; cbn [fst snd] in Heq.
  destruct src; injection Heq as <- <-.
  - split; [now left|]. rewrite length_map.
    destruct data; [contradiction|]. cbn [List.length] in *. lia.
  - split; [now right|].
    destruct data; [contradiction|]. cbn [List.length] in *. lia.
Qed.

Lemma writes_well_formed_witness :
  (3 = master sample_final \/ 3 = STDOUT_FILENO) /\
  (1 <= List.length [x6c; x73; x0d] <= BUFSIZE)%nat.
Proof.
  exact (writes_well_formed [] sample_env (Some cooked) true sample_stack
           sample_session sample_final 3 [x6c; x73; x0d]
           ltac:(vm_compute; reflexivity) ltac:(left; reflexivity)).
Defined.

(** Once close (master) has been called the process reads nothing, polls
    nothing and writes nothing more. *)
Theorem no_io_after_close :
  forall argv env cons settable stack es s e s',
    run argv env es (init cons settable stack) = Some s ->
    closes s <> [] ->
    step argv env s e = Some s' ->
    written s' = written s /\
    read_of s e = [] /\
    (forall r, e <> Ret_read r) /\
    (forall ret errno rev0 rev1, e <> Ret_poll ret errno rev0 rev1).
Proof.
  intros argv env cons settable stack es s e s' Hrun Hcl Hs.
  pose proof (run_inv _ _ _ _ _ _ _ Hrun) as HI.
  assert (Hpc : closed_by (at_pc s) = true).
  { destruct (has_child s) eqn:Hc.
    - destruct (inv_parent _ _ HI Hc) as ((_ & Hc' & _) & _).
      destruct (closed_by (at_pc s)); [reflexivity|contradiction].
    - destruct (inv_no_child _ _ HI Hc) as ((_ & _ & _ & _ & Hc' & _) & _).
      contradiction. }
  destruct (step_cases _ _ _ _ _ Hs) as (Hh & [(Ha & HF)|(Ha & Hm)]).
  { unfold same_but_child_record in HF. break_hyps.
    split; [congruence|]. split.
    - unfold read_of. destruct e; try discriminate Ha;
        destruct (at_pc s); reflexivity.
    - split; intros; intros ->; discriminate Ha. }
  clear Hs. rename Hm into Hs.
  unfold read_of.
  destruct s as [p ce cs pd ms ho ot bf r0 r1 co cset ch pend psz mf wr cl rs wt sy rp wsig].
  cbn in Hpc, Hh, Hs |- *.
  destruct p; try discriminate; destruct e; cbn in Hs; try discriminate.
  all: unfold tcsetattr, wait_and_store, waitpid in Hs; cbn in Hs.
  all: try (destruct ch; try discriminate; cbn in Hs).
  all: split_ifs; try discriminate; inv_some; cbn.
  all: repeat split; intros; discriminate.
Qed.

Lemma no_io_after_close_witness :
  written (final (run [] sample_env (sample_to_close ++ [Go]) sample_start))
  = written (final (run [] sample_env sample_to_close sample_start)).
Proof.
  exact (proj1 (no_io_after_close [] sample_env (Some cooked) true
                  sample_stack sample_to_close
                  (final (run [] sample_env sample_to_close sample_start))
                  Go
                  (final (run [] sample_env (sample_to_close ++ [Go])
                            sample_start))
                  ltac:(vm_compute; reflexivity)
                  ltac:(vm_compute; discriminate)
                  ltac:(vm_compute; reflexivity))).
Defined.

(** ** The exit status, for every status word *)

Lemma wexitstatus_range (status : Z) : 0 <= WEXITSTATUS status <= 255.
Proof.
  unfold WEXITSTATUS. rewrite Z.shiftr_land.
  change (Z.shiftr 65280 8) with (Z.ones 8).
  rewrite Z.land_ones by lia.
  pose proof (Z.mod_pos_bound (Z.shiftr status 8) (2 ^ 8) ltac:(lia)). lia.
Qed.

Lemma exit_status_range (status : Z) : 0 <= exit_status status <= 255.
Proof.
  unfold exit_status. destruct (WIFEXITED status); [|lia].
  apply wexitstatus_range.
Qed.

(** Whatever the run, whatever [child_status] ends up holding, the value
    [main] returns is between 0 and 255. *)
Theorem returned_value_range :
  forall argv env cons settable stack es s rc,
    run argv env es (init cons settable stack) = Some s ->
    at_pc s = Returned rc ->
    0 <= rc <= 255.
Proof.
  intros argv env cons settable stack es s rc Hrun Hpc.
  pose proof (run_inv _ _ _ _ _ _ _ Hrun) as HI.
  destruct (has_child s) eqn:Hc.
  - destruct (inv_parent _ _ HI Hc) as (_ & Hrc).
    rewrite (Hrc _ Hpc). apply exit_status_range.
  - destruct (inv_no_child _ _ HI Hc) as (_ & Hrc).
    destruct (Hrc _ Hpc) as (-> & _). lia.
Qed.

Lemma returned_value_range_witness : 0 <= 1 <= 255.
Proof.
  destruct (late_sigchld_returns_stale 0 9) as (s & Hrun & _ & _ & _ & Hpc).
  exact (returned_value_range [] sample_env (Some cooked) true sample_stack
           (late_sigchld (Exited 0) 9) s 1 Hrun Hpc).
Defined.

Lemma exit_status_exited_any (c : Z) :
  exit_status (wait_status (Exited c)) = c mod 256.
Proof.
  assert (H : wait_status (Exited c) = wait_status (Exited (c mod 256))).
  { cbn [wait_status]. change 255 with (Z.ones 8).
    rewrite !Z.land_ones by lia. change (2 ^ 8) with 256.
    now rewrite Z.mod_mod by lia. }
  rewrite H. apply exit_status_exited.
  pose proof (Z.mod_pos_bound c 256 ltac:(lia)). lia.
Qed.

(** When the wait at line 161 did not fail and the handler reaped no
    descendant but the child, the relay returns what the child ended
    with: the low eight bits of its exit code, or 1 if a signal killed it,
    core dump or not. *)
Theorem exit_code_when_only_child_reaped :
  forall argv env cons settable stack es s rc t,
    run argv env es (init cons settable stack) = Some s ->
    at_pc s = Returned rc ->
    valid_termination t = true ->
    child s = Reaped (wait_status t) ->
    ~ In (-1) (waits s) ->
    only_child_reaped s = true ->
    rc = match t with
         | Exited c => c mod 256
         | Signaled _ _ => 1
         end.
Proof.
  intros argv env cons settable stack es s rc t Hrun Hpc Hv Hch Hno Honly.
  assert (Hc : has_child s = true) by (unfold has_child; now rewrite Hch).
  destruct (returned_status _ _ _ _ _ _ _ _ Hrun Hpc Hc) as (Hrc & Hk).
  specialize (Hk Hno Honly). rewrite Hch in Hk. injection Hk as Hk.
  rewrite Hrc, <- Hk. destruct t as [c|sig core].
  - apply exit_status_exited_any.
  - now apply exit_status_signaled.
Qed.

Lemma exit_code_when_only_child_reaped_witness :
  at_pc sample_final_127 = Returned 127 /\
  child sample_final_127 = Reaped (wait_status (Exited 127)) /\
  only_child_reaped sample_final_127 = true /\
  127 = 127 mod 256.
Proof.
  split; [reflexivity|]. split; [reflexivity|]. split; [reflexivity|].
  exact (exit_code_when_only_child_reaped [] sample_env (Some cooked) true
           sample_stack sample_exec_failed sample_final_127 127 (Exited 127)
           ltac:(vm_compute; reflexivity) eq_refl eq_refl eq_refl
           ltac:(intros H; exact H) eq_refl).
Defined.
(** ** Leaving the loop once the child is gone *)

Lemma past_loop_step argv env s e s' :
  past_loop (at_pc s) = true ->
  step argv env s e = Some s' ->
  past_loop (at_pc s') = true.
Proof.
  intros Hp Hs.
  destruct (step_cases _ _ _ _ _ Hs) as (_ & [(Ha & HF)|(Ha & Hm)]).
  { destruct HF as (-> & _). exact Hp. }
  clear Hs. rename Hm into Hs.
  destruct s as [p ce cs pd ms ho ot bf r0 r1 co cset ch pend psz mf wr cl rs wt sy rp wsig].
  cbn in Hp.
  destruct e; try discriminate Ha.
  all: unfold main_step in Hs; cbn in Hs;
    destruct p; try discriminate; try destruct r; cbn in Hs;
    unfold read, write, tcsetattr, wait_and_store, waitpid in Hs; cbn in Hs;
    try (destruct ch; try discriminate; cbn in Hs);
    split_ifs; try discriminate; inv_some; reflexivity.
Qed.

Lemma past_loop_run argv env es : forall s s',
  past_loop (at_pc s) = true ->
  run argv env es s = Some s' ->
  past_loop (at_pc s') = true.
Proof.
  induction es as [|e es IH]; intros s s' Hp Hrun; cbn [run] in Hrun.
  - now inversion Hrun; subst.
  - destruct (step argv env s e) as [s1|] eqn:Hs; [|discriminate].
    eapply IH; [|exact Hrun]. eapply past_loop_step; eassumption.
Qed.

Lemma flagged_step argv env s e s' :
  in_loop (at_pc s) = true ->
  child_exited s = true ->
  step argv env s e = Some s' ->
  in_loop (at_pc s') = true ->
  ((if is_async e then 0 else 1) + loop_rank (at_pc s')
   <= loop_rank (at_pc s))%nat.
Proof.
  intros Hl Hce Hs Hl'.
  destruct (step_cases _ _ _ _ _ Hs) as (_ & [(Ha & HF)|(Ha & Hm)]).
  { rewrite Ha. destruct HF as (-> & _). cbn. lia. }
  clear Hs. rename Hm into Hs.
  destruct s as [p ce cs pd ms ho ot bf r0 r1 co cset ch pend psz mf wr cl rs wt sy rp wsig].
  cbn in Hl, Hce. subst ce.
  destruct e; try discriminate Ha.
  all: unfold main_step in Hs; cbn in Hs;
    destruct p; try discriminate; try destruct r; cbn in Hs;
    unfold stdin_test, master_test, hup_test, read, write in Hs; cbn in Hs;
    split_ifs; try discriminate; inv_some; cbn in Hl' |- *;
    try discriminate; lia.
Qed.

(** Once the exited flag is set the relay does not start another round:
    it makes at most what is left of the current one (a poll, a read on
    each side) and the loop test, which ends the loop. *)
Theorem loop_ends_after_flag :
  forall argv env es s s',
    in_loop (at_pc s) = true ->
    child_exited s = true ->
    run argv env es s = Some s' ->
    in_loop (at_pc s') = true ->
    (main_steps es + loop_rank (at_pc s') <= loop_rank (at_pc s))%nat /\
    (main_steps es <= 3)%nat.
Proof.
  intros argv env es.
  assert (H : forall s s',
             in_loop (at_pc s) = true -> child_exited s = true ->
             run argv env es s = Some s' -> in_loop (at_pc s') = true ->
             (main_steps es + loop_rank (at_pc s') <= loop_rank (at_pc s))%nat).
  { induction es as [|e es IH]; intros s s' Hl Hce Hrun Hl'; cbn [run] in Hrun.
    - inversion Hrun; subst. cbn. lia.
    - destruct (step argv env s e) as [s1|] eqn:Hs; [|discriminate].
      destruct (loop_exits_to_drain _ _ _ _ _ Hl Hs) as [Hl1|Hd].
      + pose proof (flagged_step _ _ _ _ _ Hl Hce Hs Hl1) as Hr.
        pose proof (exited_flag_kept _ _ _ _ _ Hs Hce) as Hce1.
        specialize (IH _ _ Hl1 Hce1 Hrun Hl').
        unfold main_steps in *. cbn [filter].
        destruct (is_async e); cbn [negb List.length] in *; lia.
      + assert (Hp : past_loop (at_pc s1) = true) by now rewrite Hd.
        pose proof (past_loop_run _ _ _ _ _ Hp Hrun) as Hp'.
        destruct (at_pc s'); discriminate. }
  intros s s' Hl Hce Hrun Hl'. specialize (H _ _ Hl Hce Hrun Hl').
  split; [exact H|].
  destruct (at_pc s); try discriminate; destruct (at_pc s'); try discriminate;
    cbn in H; lia.
Qed.

Lemma loop_ends_after_flag_witness :
  (main_steps [Ret_poll 0 0 0 0] + loop_rank AtLoopTest
   <= loop_rank AtPoll)%nat.
Proof.
  exact (proj1 (loop_ends_after_flag [] sample_env [Ret_poll 0 0 0 0]
                  sample_flagged_at_poll
                  (final (run [] sample_env [Ret_poll 0 0 0 0]
                            sample_flagged_at_poll))
                  eq_refl eq_refl ltac:(vm_compute; reflexivity) eq_refl)).
Defined.

(** ** Two ways a session ends *)

Lemma running_state cons s :
  Inv cons s -> at_pc s = AtPoll -> child s = Running ->
  0 < pid s /\
  closes s = [] /\ restores s = [] /\ waits s = [] /\
  (have_orig s = true ->
   console s = Some (orig_termios s) \/
   console_settable s = true /\
   console s = Some (cfmakeraw (orig_termios s))).
Proof.
  intros HI Hpc Hch. unfold Inv, parent_inv in HI. rewrite Hpc in HI.
  cbn [closed_by restored_by reaped_by andb] in HI.
  destruct HI as (_ & Hp & Hcl & Hrs & _ & Hco & Hw).
  repeat split; try assumption.
  intros Hho. rewrite Hho in Hco.
  destruct Hco as (_ & [Hc|(_ & Hset & Hc)]); [now left | now right].
Qed.

(** A child that ends while the relay waits in poll: the handler reaps it,
    the interrupted poll leads to the loop test, the loop ends, the master
    is drained and closed, the console restored, no second wait is made,
    and the relay returns the child's exit status. *)
Theorem exit_during_poll_returns_status :
  forall argv env cons settable stack es s t,
    run argv env es (init cons settable stack) = Some s ->
    at_pc s = AtPoll ->
    child s = Running ->
    valid_termination t = true ->
    exists s',
      run argv env (exit_during_poll t) s = Some s' /\
      at_pc s' = Returned (exit_status (wait_status t)) /\
      child s' = Reaped (wait_status t) /\
      waits s' = [] /\
      closes s' = [master s] /\
      written s' = written s /\
      (have_orig s = true -> console s' = Some (orig_termios s)).
Proof.
  intros argv env cons settable stack es s t Hrun Hpc Hch Hv.
  pose proof (run_inv _ _ _ _ _ _ _ Hrun) as HI.
  destruct (running_state _ _ HI Hpc Hch)
    as (Hp & Hcl & Hrs & Hw & Hco).
  destruct s as [p ce cs pd ms ho ot bf r0 r1 co cset ch pend psz mf wr cl rs wt sy rp wsig].
  cbn in Hpc, Hch, Hp, Hcl, Hrs, Hw, Hco |- *. subst p ch cl rs wt.
  unfold exit_during_poll. cbn [run]. unfold step at 1. cbn. rewrite Hv.
  destruct pd as [|pd|pd]; try lia.
  destruct ho.
  - destruct (Hco eq_refl) as [->|(-> & ->)]; [destruct cset|];
      cbv -[exit_status wait_status cfmakeraw];
      (eexists; split; [reflexivity|]); repeat split.
  - destruct co; destruct cset;
      cbv -[exit_status wait_status];
      (eexists; split; [reflexivity|]); repeat split;
      intros; discriminate.
Qed.

Lemma exit_during_poll_returns_status_witness :
  exists s',
    run [] sample_env (exit_during_poll (Exited 3)) sample_at_poll = Some s' /\
    at_pc s' = Returned 3.
Proof.
  destruct (exit_during_poll_returns_status [] sample_env (Some cooked) true
              sample_stack (sample_setup ++ [Go]) sample_at_poll (Exited 3)
              ltac:(vm_compute; reflexivity) eq_refl eq_refl eq_refl)
    as (s' & Hrun & Hpc & _).
  exists s'. split; [exact Hrun | exact Hpc].
Defined.

(** End of file on stdin while the child is running and the exited flag
    is clear: the relay leaves the loop without writing, closes the
    master, restores the console, and calls waitpid (pid) at line 161.
    The call does not return as long as the child runs and no handler
    has run.  When the child ends, the call reaps it and the relay
    returns the child's exit status.  When a handler runs first (here
    for a SIGCHLD another process sends), the call fails with EINTR and
    the relay returns with the child still running; what it returns is
    computed from the unset [status]. *)
Theorem stdin_eof_then_wait :
  forall argv env cons settable stack es s,
    run argv env es (init cons settable stack) = Some s ->
    at_pc s = AtPoll ->
    child s = Running ->
    child_exited s = false ->
    exists s1,
      run argv env stdin_eof s = Some s1 /\
      at_pc s1 = AtWaitpid /\
      closes s1 = [master s] /\
      written s1 = written s /\
      (have_orig s = true -> console s1 = Some (orig_termios s)) /\
      wait_signalled s1 = false /\
      (forall stale, step argv env s1 (Ret_waitpid stale) = None) /\
      (forall stale, step argv env s1 (Wait_interrupted stale) = None) /\
      (forall t stale, valid_termination t = true ->
         exists s2,
           run argv env (child_ends_in_wait t stale) s1 = Some s2 /\
           at_pc s2 = Returned (exit_status (wait_status t)) /\
           child s2 = Reaped (wait_status t) /\
           waits s2 = [pid s]) /\
      (forall stale,
         exists s2,
           run argv env (signalled_in_wait stale) s1 = Some s2 /\
           at_pc s2 = Returned (exit_status stale) /\
           child s2 = Running /\
           waits s2 = [-1]).
Proof.
  intros argv env cons settable stack es s Hrun Hpc Hch Hce.
  destruct (run_kin _ _ _ _ _ _ _ Hrun) as [HI HK].
  destruct (running_state _ _ HI Hpc Hch)
    as (Hp & Hcl & Hrs & Hw & Hco).
  assert (Hsig : wait_signalled s = false).
  { destruct HK as (_ & _ & (_ & W2)).
    destruct (wait_signalled s); [|reflexivity].
    rewrite Hpc in W2. destruct (W2 eq_refl); discriminate. }
  destruct s as [p ce cs pd ms ho ot bf r0 r1 co cset ch pend psz mf wr cl rs wt sy rp wsig].
  cbn in Hpc, Hch, Hp, Hce, Hcl, Hrs, Hw, Hco, Hsig |- *.
  subst p ch ce cl rs wt wsig.
  unfold stdin_eof, child_ends_in_wait, signalled_in_wait.
  assert (Hfin : forall s1 : state,
            at_pc s1 = AtWaitpid -> child s1 = Running ->
            waits s1 = [] -> pid s1 = pd -> wait_signalled s1 = false ->
            (forall stale, step argv env s1 (Ret_waitpid stale) = None) /\
            (forall stale, step argv env s1 (Wait_interrupted stale) = None) /\
            (forall t stale, valid_termination t = true ->
               exists s2,
                 run argv env [Child_ends t; Ret_waitpid stale; Go] s1
                 = Some s2 /\
                 at_pc s2 = Returned (exit_status (wait_status t)) /\
                 child s2 = Reaped (wait_status t) /\
                 waits s2 = [pd]) /\
            (forall stale,
               exists s2,
                 run argv env
                   [Sigchld_raised; Sigchld; Wait_interrupted stale; Go] s1
                 = Some s2 /\
                 at_pc s2 = Returned (exit_status stale) /\
                 child s2 = Running /\
                 waits s2 = [-1])).
  { intros s1 H1 H2 H3 H4 H5.
    destruct s1 as [p1 ce1 cs1 pd1 ms1 ho1 ot1 bf1 r01 r11 co1 cset1 ch1
                      pend1 psz1 mf1 wr1 cl1 rs1 wt1 sy1 rp1 wsig1].
    cbn in H1, H2, H3, H4, H5. subst.
    split; [intros stale; reflexivity|].
    split; [intros stale; reflexivity|].
    split.
    - intros t stale Hv. cbn [run]. unfold step at 1. cbn. rewrite Hv.
      cbv -[exit_status wait_status].
      eexists. split; [reflexivity|]. repeat split.
    - intros stale.
      destruct sy1 as [|[[|q|q] st] sy1];
        cbv -[exit_status remove_nth];
        (eexists; split; [reflexivity|]); repeat split. }
  destruct ho.
  - destruct (Hco eq_refl) as [->|(-> & ->)]; [destruct cset|];
      (eexists; split; [cbv -[cfmakeraw]; reflexivity|]);
      (split; [reflexivity|]); (split; [reflexivity|]);
      (split; [reflexivity|]); (split; [reflexivity|]);
      (split; [reflexivity|]);
      apply Hfin; reflexivity.
  - destruct co; destruct cset;
      (eexists; split; [cbv; reflexivity|]);
      (split; [reflexivity|]); (split; [reflexivity|]);
      (split; [reflexivity|]); (split; [intros; discriminate|]);
      (split; [reflexivity|]);
      apply Hfin; reflexivity.
Qed.

Lemma stdin_eof_then_wait_witness :
  exists s1,
    run [] sample_env stdin_eof sample_at_poll = Some s1 /\
    at_pc s1 = AtWaitpid /\ closes s1 = [3] /\
    exists s2,
      run [] sample_env (signalled_in_wait 0) s1 = Some s2 /\
      at_pc s2 = Returned 0 /\ child s2 = Running.
Proof.
  destruct (stdin_eof_then_wait [] sample_env (Some cooked) true
              sample_stack (sample_setup ++ [Go]) sample_at_poll
              ltac:(vm_compute; reflexivity) eq_refl eq_refl eq_refl)
    as (s1 & Hrun & Hpc & Hcl & _ & _ & _ & _ & _ & _ & Hsig).
  destruct (Hsig 0) as (s2 & Hrun2 & Hpc2 & Hch2 & _).
  exists s1. repeat split; try assumption.
  exists s2. repeat split; assumption.
Defined.
(** ** The poll bits that end the loop *)

Lemma land_bit (x k : Z) :
  0 <= k -> (Z.land x (2 ^ k) =? 0) = negb (Z.testbit x k).
Proof.
  intros Hk. destruct (Z.testbit x k) eqn:Hb; cbn [negb].
  - apply Z.eqb_neq. intros H0.
    assert (Ht : Z.testbit (Z.land x (2 ^ k)) k = true).
    { rewrite Z.land_spec, Hb, Z.pow2_bits_eqb, Z.eqb_refl by lia.
      reflexivity. }
    rewrite H0, Z.bits_0 in Ht. discriminate.
  - apply Z.eqb_eq. apply Z.bits_inj'. intros n Hn.
    rewrite Z.land_spec, Z.pow2_bits_eqb, Z.bits_0 by lia.
    destruct (Z.eqb_spec k n) as [<-|Hne].
    + now rewrite Hb.
    + apply andb_false_r.
Qed.

Lemma land_two_bits (x j k : Z) :
  0 <= j -> 0 <= k ->
  (Z.land x (Z.lor (2 ^ j) (2 ^ k)) =? 0)
  = negb (Z.testbit x j || Z.testbit x k).
Proof.
  intros Hj Hk. rewrite Z.land_lor_distr_r, negb_orb.
  rewrite <- (land_bit x j Hj), <- (land_bit x k Hk).
  destruct (Z.land x (2 ^ j) =? 0) eqn:Ej, (Z.land x (2 ^ k) =? 0) eqn:Ek;
    cbn [andb].
  - apply Z.eqb_eq in Ej, Ek. rewrite Ej, Ek. reflexivity.
  - apply Z.eqb_neq. rewrite Z.lor_eq_0_iff. apply Z.eqb_neq in Ek. tauto.
  - apply Z.eqb_neq. rewrite Z.lor_eq_0_iff. apply Z.eqb_neq in Ej. tauto.
  - apply Z.eqb_neq. rewrite Z.lor_eq_0_iff. apply Z.eqb_neq in Ej. tauto.
Qed.

(** When poll reports events but nothing to read on either side, the
    loop ends exactly if POLLERR or POLLHUP is set for stdin or POLLHUP
    for the master; every other bit, POLLERR on the master and POLLNVAL
    on either side among them, sends the relay back to poll. *)
Theorem poll_bits_that_end_the_loop :
  forall argv env s ret errno rev0 rev1,
    at_pc s = AtPoll ->
    0 < ret ->
    Z.testbit rev0 0 = false ->
    Z.testbit rev1 0 = false ->
    exists s',
      step argv env s (Ret_poll ret errno rev0 rev1) = Some s' /\
      written s' = written s /\
      at_pc s' = if Z.testbit rev0 3 || Z.testbit rev0 4 || Z.testbit rev1 4
                 then AtDrain else AtLoopTest.
Proof.
  intros argv env s ret errno rev0 rev1 Hpc Hret H0 H1.
  unfold step, main_step. rewrite Hpc. cbn [halted].
  replace (ret <? 0) with false by (symmetry; apply Z.ltb_ge; lia).
  replace (ret =? 0) with false by (symmetry; apply Z.eqb_neq; lia).
  eexists. split; [reflexivity|].
  split; [now destruct s|].
  cbv zeta. cbn [at_pc set_pc].
  unfold stdin_test, master_test, hup_test.
  cbn [revents0 revents1 set_revents].
  unfold POLLIN, POLLHUP, POLLERR.
  change (Z.land rev0 1) with (Z.land rev0 (2 ^ 0)).
  change (Z.land rev1 1) with (Z.land rev1 (2 ^ 0)).
  change (Z.land rev1 16) with (Z.land rev1 (2 ^ 4)).
  change (Z.lor 16 8) with (Z.lor (2 ^ 3) (2 ^ 4)).
  rewrite (land_bit rev0 0), (land_bit rev1 0), H0, H1 by lia. cbn [negb].
  rewrite (land_bit rev1 4), (land_two_bits rev0 3 4) by lia.
  rewrite !negb_involutive.
  destruct (Z.testbit rev0 3), (Z.testbit rev0 4), (Z.testbit rev1 4);
    reflexivity.
Qed.

Lemma poll_bits_that_end_the_loop_witness :
  exists s',
    step [] sample_env sample_at_poll (Ret_poll 2 0 32 8) = Some s' /\
    at_pc s' = AtLoopTest.
Proof.
  destruct (poll_bits_that_end_the_loop [] sample_env sample_at_poll
              2 0 32 8 eq_refl ltac:(lia) eq_refl eq_refl)
    as (s' & Hs & _ & Hpc).
  exists s'. split; [exact Hs | exact Hpc].
Defined.

(** ** Setting up the session *)

(** fcntl at lines 97-99: when F_GETFL succeeds the master gets the flags
    it had plus O_NONBLOCK, bit for bit; when it fails the flags are not
    touched.  Either way the relay goes on to its loop. *)
Theorem fcntl_adds_nonblock :
  forall argv env s flags,
    at_pc s = AtFcntl ->
    exists s',
      step argv env s (Ret_fcntl flags) = Some s' /\
      at_pc s' = AtLoopTest /\
      (0 <= flags ->
       forall i, 0 <= i ->
         Z.testbit (master_flags s') i = Z.testbit flags i || (i =? 11)) /\
      (flags < 0 -> master_flags s' = master_flags s).
Proof.
  intros argv env s flags Hpc.
  unfold step, main_step. rewrite Hpc. cbn [halted].
  destruct (flags >=? 0) eqn:Hf.
  - eexists. split; [reflexivity|]. split; [reflexivity|]. split.
    + intros _ i Hi. destruct s; cbn.
      rewrite Z.lor_spec. f_equal.
      change O_NONBLOCK with (2 ^ 11).
      rewrite Z.pow2_bits_eqb by lia. apply Z.eqb_sym.
    + intros Hneg. apply Z.geb_le in Hf. lia.
  - eexists. split; [reflexivity|]. split; [reflexivity|]. split.
    + intros Hpos. rewrite Z.geb_leb in Hf. apply Z.leb_gt in Hf. lia.
    + intros _. now destruct s.
Qed.

Lemma fcntl_adds_nonblock_witness :
  exists s',
    step [] sample_env
      (final (run [] sample_env [Ret_forkpty 7 3; Go; Go] sample_start))
      (Ret_fcntl 2) = Some s' /\
    master_flags s' = 2050.
Proof.
  destruct (fcntl_adds_nonblock [] sample_env
              (final (run [] sample_env [Ret_forkpty 7 3; Go; Go]
                        sample_start))
              2 eq_refl) as (s' & Hs & _).
  exists s'. split; [exact Hs|].
  cbv in Hs. injection Hs as <-. reflexivity.
Defined.

Lemma raw_step argv env cons s e s' :
  Inv cons s -> raw_inv s ->
  step argv env s e = Some s' -> raw_inv s'.
Proof.
  intros HI HR Hs.
  destruct (step_cases _ _ _ _ _ Hs) as (Hh & [(Ha & HF)|(Ha & Hm)]).
  { unfold same_but_child_record in HF. break_hyps. unfold raw_inv in *.
    intros A B C.
    assert (E : console s = Some (cfmakeraw (orig_termios s)))
      by (apply HR; congruence).
    congruence. }
  clear Hs. rename Hm into Hs.
  unfold raw_inv in *.
  destruct s as [p ce cs pd ms ho ot bf r0 r1 co cset ch pend psz mf wr cl rs wt sy rp wsig].
  cbn in HR, Hh.
  destruct e; try discriminate Ha.
  all: unfold main_step in Hs; cbn in Hs;
    destruct p; try discriminate; try destruct r; cbn in Hs.
  all: unfold Inv, fresh, parent_inv, has_child in HI; cbn in HI.
  all: unfold stdin_test, master_test, hup_test, read, write, tcsetattr, wait_and_store, waitpid in Hs;
    cbn in Hs;
    try (destruct ch; try discriminate; cbn in Hs).
  all: split_ifs; try discriminate; inv_some; cbn.
  all: try (intros; discriminate).
  all: try (intros _ ? ?; subst; apply HR; reflexivity).
  all: try (intros _ _ _; reflexivity).
  all: try (break_hyps; discriminate).
  all: break_hyps;
    match goal with H : _ \/ _ |- _ => destruct H end;
    break_hyps; discriminate.
Qed.

Lemma settable_kept argv env s e s' :
  step argv env s e = Some s' -> console_settable s' = console_settable s.
Proof.
  intros Hs.
  destruct (step_cases _ _ _ _ _ Hs) as (Hh & [(Ha & HF)|(Ha & Hm)]).
  { unfold same_but_child_record in HF. break_hyps. assumption. }
  clear Hs. rename Hm into Hs.
  destruct s as [p ce cs pd ms ho ot bf r0 r1 co cset ch pend psz mf wr cl rs wt sy rp wsig].
  destruct e; try discriminate Ha.
  all: unfold main_step in Hs; cbn in Hs;
    destruct p; try discriminate; try destruct r; cbn in Hs;
    unfold read, write, tcsetattr, wait_and_store, waitpid in Hs; cbn in Hs;
    try (destruct ch; try discriminate; cbn in Hs);
    split_ifs; try discriminate; inv_some; reflexivity.
Qed.

(** From the switch to raw mode at line 93 to the restore at line 156, a
    console that takes mode changes is in the raw mode derived from the
    captured attributes, whatever happens in the loop; one that does not
    take them keeps the captured attributes. *)
Theorem console_raw_during_session :
  forall argv env cons settable stack es s snapshot,
    run argv env es (init cons settable stack) = Some s ->
    cons = Some snapshot ->
    has_child s = true ->
    in_session (at_pc s) = true ->
    console s = Some (if settable then cfmakeraw snapshot else snapshot).
Proof.
  intros argv env cons settable stack es s snapshot Hrun Hcons Hc Hsess.
  assert (HP : Inv cons s /\ raw_inv s /\ console_settable s = settable).
  { apply (run_invariant argv env
             (fun s => Inv cons s /\ raw_inv s /\ console_settable s = settable)
             ) with (es := es) (s := init cons settable stack).
    - intros s0 e s1 (HI & HR & Hset) Hs. split; [|split].
      + eapply step_inv; eassumption.
      + eapply raw_step; eassumption.
      + rewrite <- Hset. eapply settable_kept; eassumption.
    - split; [apply init_inv|]. split; [|reflexivity].
      unfold raw_inv. cbn. discriminate.
    - exact Hrun. }
  destruct HP as (HI & HR & Hset).
  destruct (inv_parent _ _ HI Hc) as ((_ & _ & _ & Hho & Hco & _) & _).
  assert (Hcap : captured (at_pc s) = true)
    by (destruct (at_pc s); try discriminate; reflexivity).
  rewrite Hcap, Hcons in Hho. cbn in Hho. rewrite Hho, Hcons in Hco.
  destruct Hco as (Hsnap & Hcon). injection Hsnap as Hsnap. subst snapshot.
  destruct settable.
  - apply HR; assumption.
  - destruct Hcon as [Hc1|(_ & Hs1 & _)]; [exact Hc1|congruence].
Qed.

Lemma console_raw_during_session_witness :
  console sample_at_stdin = Some (cfmakeraw cooked).
Proof.
  exact (console_raw_during_session [] sample_env (Some cooked) true
           sample_stack (sample_setup ++ [Go; Ret_poll 1 0 1 0])
           sample_at_stdin cooked
           ltac:(vm_compute; reflexivity) eq_refl eq_refl eq_refl).
Defined.

Lemma size_step argv env s e s' :
  size_inv env s -> step argv env s e = Some s' -> size_inv env s'.
Proof.
  intros HS Hs.
  destruct (step_cases _ _ _ _ _ Hs) as (Hh & [(Ha & HF)|(Ha & Hm)]).
  { pose proof (async_has_child _ _ _ _ _ Ha Hs) as Hc.
    unfold same_but_child_record in HF. break_hyps. unfold size_inv in *.
    rewrite Hc. congruence. }
  clear Hs. rename Hm into Hs.
  unfold size_inv, has_child in *.
  destruct s as [p ce cs pd ms ho ot bf r0 r1 co cset ch pend psz mf wr cl rs wt sy rp wsig].
  cbn in HS.
  destruct e; try discriminate Ha.
  all: unfold main_step in Hs; cbn in Hs;
    destruct p; try discriminate; try destruct r; cbn in Hs;
    unfold read, write, tcsetattr, wait_and_store, waitpid in Hs; cbn in Hs;
    try (destruct ch; try discriminate; cbn in Hs);
    split_ifs; try discriminate; inv_some; cbn; first [exact HS | reflexivity].
Qed.

(** The PTY has the size it was allocated with for as long as the relay
    runs (the relay never resizes it), and both dimensions are within an
    unsigned short whatever the environment holds. *)
Theorem pty_size_is_fixed :
  forall argv env cons settable stack es s,
    run argv env es (init cons settable stack) = Some s ->
    pty_size s = (if has_child s then Some (initial_winsize env) else None) /\
    0 <= ws_row (initial_winsize env) < 65536 /\
    0 <= ws_col (initial_winsize env) < 65536 /\
    ws_xpixel (initial_winsize env) = 0 /\
    ws_ypixel (initial_winsize env) = 0.
Proof.
  intros argv env cons settable stack es s Hrun. split.
  - apply (run_invariant argv env (size_inv env)) with (es := es)
      (s := init cons settable stack).
    + intros s0 e s1. apply size_step.
    + reflexivity.
    + exact Hrun.
  - unfold initial_winsize, to_ushort. cbn [ws_row ws_col ws_xpixel ws_ypixel].
    change (2 ^ 16) with 65536.
    pose proof (Z.mod_pos_bound (term_rows env) 65536 ltac:(lia)).
    pose proof (Z.mod_pos_bound (term_cols env) 65536 ltac:(lia)).
    repeat split; lia.
Qed.

Lemma pty_size_is_fixed_witness :
  pty_size sample_final = Some (mk_winsize 50 120 0 0).
Proof.
  exact (proj1 (pty_size_is_fixed [] sample_env (Some cooked) true
                  sample_stack sample_session sample_final
                  ltac:(vm_compute; reflexivity))).
Defined.

(** ** The child side of the fork *)

(** What the child execs: the command given, looked up along PATH, with
    the relay's arguments from the command on; or /krun-init.sh alone when
    none is given.  In both cases the program finds its own name in its
    first argument.  The child side writes nothing and leaves the console
    alone. *)
Theorem child_side_exec :
  forall argv env cons settable stack m,
    exists s,
      run argv env [Ret_forkpty 0 m; Exec_done] (init cons settable stack)
      = Some s /\
      at_pc s = Execed (child_exec argv) /\
      written s = [] /\ console s = cons /\ restores s = [] /\
      hd_error (exec_args (child_exec argv))
      = Some (exec_file (child_exec argv)) /\
      ((1 < List.length argv)%nat ->
       search_path (child_exec argv) = true /\
       nth_error argv 1 = Some (exec_file (child_exec argv)) /\
       exec_args (child_exec argv) = tl argv) /\
      ((List.length argv <= 1)%nat ->
       child_exec argv
       = mk_exec false "/krun-init.sh" ["/krun-init.sh"%string]).
Proof.
  intros argv env cons settable stack m.
  eexists. split; [reflexivity|]. cbn.
  split; [reflexivity|]. split; [reflexivity|]. split; [reflexivity|].
  split; [reflexivity|].
  unfold child_exec.
  destruct argv as [|a0 [|a1 rest]]; cbn -[Z.of_nat Z.ltb].
  - split; [reflexivity|]. split; [cbn; lia | reflexivity].
  - split; [reflexivity|]. split; [cbn; lia | reflexivity].
  - replace (1 <? Z.of_nat (S (S (List.length rest)))) with true
      by (symmetry; apply Z.ltb_lt; lia).
    cbn. split; [reflexivity|]. split; [intros _; repeat split | lia].
Qed.

Lemma child_side_exec_witness :
  child_exec ["krun-relay"; "bash"; "-l"]%string
  = mk_exec true "bash" ["bash"; "-l"]%string /\
  child_exec ["krun-relay"%string]
  = mk_exec false "/krun-init.sh" ["/krun-init.sh"%string].
Proof.
  destruct (child_side_exec ["krun-relay"; "bash"; "-l"]%string sample_env
              (Some cooked) true sample_stack 3)
    as (s & _ & _ & _ & _ & _ & _ & H & _).
  destruct (H ltac:(cbn; lia)) as (_ & _ & Hargs).
  destruct (child_side_exec ["krun-relay"%string] sample_env
              (Some cooked) true sample_stack 3)
    as (s' & _ & _ & _ & _ & _ & _ & _ & H').
  split; [reflexivity | exact (H' ltac:(cbn; lia))].
Defined.

(** ** More on the ioctl wrapper *)

(** The wrapper never reports a failed TIOCGWINSZ: it returns 0 whatever
    the underlying call returned and whatever the environment holds.  With
    neither variable set it still leaves the memory exactly as the
    underlying call left it, for every request. *)
Theorem ioctl_winsize_never_fails :
  forall real_ioctl env fd request arg,
    (request = TIOCGWINSZ ->
     fst (FakeUid.ioctl real_ioctl env fd request arg) = 0) /\
    (getenv env "WRAPIX_TERM_ROWS" = None ->
     getenv env "WRAPIX_TERM_COLS" = None ->
     snd (FakeUid.ioctl real_ioctl env fd request arg)
     = snd (real_ioctl fd request arg)).
Proof.
  intros real_ioctl env fd request arg. unfold FakeUid.ioctl.
  destruct (real_ioctl fd request arg) as [ret ws]. cbn [fst snd]. split.
  - intros ->. rewrite Z.eqb_refl.
    destruct (ret =? 0) eqn:Hret; cbn [negb orb].
    + apply Z.eqb_eq in Hret. subst ret.
      destruct ((ws_row ws =? 0) && (ws_col ws =? 0)); reflexivity.
    + reflexivity.
  - intros -> ->.
    destruct (request =? TIOCGWINSZ); [|reflexivity].
    destruct (negb (ret =? 0) || ((ws_row ws =? 0) && (ws_col ws =? 0)));
      reflexivity.
Qed.

Lemma ioctl_winsize_never_fails_witness :
  fst (FakeUid.ioctl failing_ioctl [] 0 TIOCGWINSZ (mk_winsize 5 7 0 0)) = 0 /\
  snd (FakeUid.ioctl failing_ioctl [] 0 TIOCGWINSZ (mk_winsize 5 7 0 0))
  = mk_winsize 5 7 0 0.
Proof.
  destruct (ioctl_winsize_never_fails failing_ioctl [] 0 TIOCGWINSZ
              (mk_winsize 5 7 0 0)) as (H1 & H2).
  split; [exact (H1 eq_refl) | exact (H2 eq_refl eq_refl)].
Defined.

(** Interposing the wrapper twice is the same as interposing it once. *)
Theorem ioctl_wrapper_idempotent :
  forall real_ioctl env fd request arg,
    FakeUid.ioctl (FakeUid.ioctl real_ioctl env) env fd request arg
    = FakeUid.ioctl real_ioctl env fd request arg.
Proof.
  intros real_ioctl env fd request arg.
  unfold FakeUid.ioctl at 1.
  destruct (FakeUid.ioctl real_ioctl env fd request arg) as [ret ws] eqn:Hin.
  destruct (request =? TIOCGWINSZ) eqn:Hreq; [|reflexivity].
  unfold FakeUid.ioctl in Hin. rewrite Hreq in Hin.
  destruct (real_ioctl fd request arg) as [ret0 ws0].
  destruct (negb (ret0 =? 0) || ((ws_row ws0 =? 0) && (ws_col ws0 =? 0)))
    eqn:Hp.
  - injection Hin as <- <-. cbn [Z.eqb negb orb].
    destruct (getenv env "WRAPIX_TERM_ROWS") as [r|];
      destruct (getenv env "WRAPIX_TERM_COLS") as [c|];
      cbn [ws_row ws_col FakeUid.set_ws_row FakeUid.set_ws_col];
      match goal with
      | |- (if ?b then _ else _) = _ => destruct b
      end; destruct ws0; reflexivity.
  - injection Hin as <- <-. rewrite Hp. reflexivity.
Qed.

(** The two files together: a child running under the shim on the PTY the
    relay allocated, with the environment the relay had, is told exactly
    the size the relay gave the PTY. *)
Theorem shim_on_relay_pty :
  forall env fd arg,
    FakeUid.ioctl (tty_ioctl (initial_winsize env)) env fd TIOCGWINSZ arg
    = (0, initial_winsize env).
Proof.
  intros env fd arg. unfold FakeUid.ioctl, tty_ioctl.
  rewrite Z.eqb_refl. cbn [Z.eqb negb orb].
  unfold initial_winsize, term_rows, term_cols.
  cbn [ws_row ws_col].
  destruct (getenv env "WRAPIX_TERM_ROWS") as [r|];
    destruct (getenv env "WRAPIX_TERM_COLS") as [c|];
    cbn [FakeUid.set_ws_row FakeUid.set_ws_col ws_row ws_col
         ws_xpixel ws_ypixel];
    match goal with
    | |- (if ?b then _ else _) = _ => destruct b eqn:Hb
    end; try reflexivity.
  all: apply andb_prop in Hb as (Hr & Hc); discriminate.
Qed.

(** When the underlying TIOCGWINSZ fails or reports 0 by 0, and both
    variables hold decimal numerals between 1 and 65535, the caller gets
    exactly these two numbers, the pixel sizes as the underlying call left
    them, and 0 as the result. *)
Theorem ioctl_patch_gives_env_size :
  forall real_ioctl env fd arg n m,
    1 <= n < 65536 -> 1 <= m < 65536 ->
    getenv env "WRAPIX_TERM_ROWS" = Some (decimal n) ->
    getenv env "WRAPIX_TERM_COLS" = Some (decimal m) ->
    (fst (real_ioctl fd TIOCGWINSZ arg) <> 0 \/
     (ws_row (snd (real_ioctl fd TIOCGWINSZ arg)) = 0 /\
      ws_col (snd (real_ioctl fd TIOCGWINSZ arg)) = 0)) ->
    FakeUid.ioctl real_ioctl env fd TIOCGWINSZ arg
    = (0, mk_winsize n m
            (ws_xpixel (snd (real_ioctl fd TIOCGWINSZ arg)))
            (ws_ypixel (snd (real_ioctl fd TIOCGWINSZ arg)))).
Proof.
  intros real_ioctl env fd arg n m Hn Hm Hr Hc Hpatch.
  unfold FakeUid.ioctl. rewrite Hr, Hc.
  destruct (real_ioctl fd TIOCGWINSZ arg) as [ret ws]. cbn [fst snd] in *.
  rewrite Z.eqb_refl.
  assert (Hb : (negb (ret =? 0)
                || ((ws_row ws =? 0) && (ws_col ws =? 0)))%bool = true).
  { destruct Hpatch as [Hret|(H1 & H2)].
    - apply Z.eqb_neq in Hret. now rewrite Hret.
    - rewrite H1, H2. apply orb_true_r. }
  rewrite Hb. rewrite !atoi_decimal by lia.
  unfold to_ushort. change (2 ^ 16) with 65536.
  rewrite !Z.mod_small by lia. reflexivity.
Qed.

Lemma ioctl_patch_gives_env_size_witness :
  FakeUid.ioctl failing_ioctl sample_env 0 TIOCGWINSZ (mk_winsize 0 0 3 4)
  = (0, mk_winsize 50 120 3 4).
Proof.
  exact (ioctl_patch_gives_env_size failing_ioctl sample_env 0
           (mk_winsize 0 0 3 4) 50 120
           ltac:(lia) ltac:(lia) eq_refl eq_refl
           ltac:(left; discriminate)).
Defined.

(** ** The handler with nothing to reap *)


(** ** The conversion loop on the buffer *)

(** The loop at lines 124-127 works in place on the first [n] bytes: the
    buffer keeps its length, no line feed is left among the first [n]
    bytes, the bytes from index [n] on are not touched, and running it
    again changes nothing. *)
Theorem lf_to_cr_in_place :
  forall n b,
    List.length (lf_to_cr n b) = List.length b /\
    (forall i c, (i < n)%nat ->
       nth_error (lf_to_cr n b) i = Some c -> c <> x0a) /\
    skipn n (lf_to_cr n b) = skipn n b /\
    lf_to_cr n (lf_to_cr n b) = lf_to_cr n b.
Proof.
  induction n as [|n IH]; intros b.
  - cbn. repeat split; try reflexivity. intros i c Hi. lia.
  - destruct b as [|c0 b]; cbn [lf_to_cr].
    + repeat split; try reflexivity.
      intros i c _ Hnth. destruct i; discriminate.
    + destruct (IH b) as (Hlen & Hno & Hskip & Hidem).
      split; [cbn; now rewrite Hlen|]. split; [|split].
      * intros [|i] c Hi Hnth; cbn in Hnth.
        -- injection Hnth as <-.
           destruct (Byte.eqb c0 x0a) eqn:E; [discriminate|].
           intros ->. discriminate.
        -- apply (Hno i c); [lia | exact Hnth].
      * cbn [skipn]. exact Hskip.
      * rewrite Hidem. f_equal.
        destruct (Byte.eqb c0 x0a) eqn:E; [reflexivity|]. now rewrite E.
Qed.

(** ** Sizes that are not sizes *)

Lemma atoi_minus_decimal (n : Z) :
  0 <= n < 65536 -> atoi (String "-" (decimal n)) = - n.
Proof.
  intros Hn. apply Z.eqb_eq.
  apply (all_from_spec
           (fun n => atoi (String "-" (decimal n)) =? - n)
           (Z.to_nat 65536) 0).
  - vm_compute. reflexivity.
  - rewrite Z2Nat.id by lia. lia.
Qed.

(** A negative size in the environment is not replaced by the default: it
    wraps around in the unsigned short, -n giving 65536 - n. *)
Theorem negative_size_wraps :
  forall env n,
    1 <= n < 65536 ->
    (getenv env "WRAPIX_TERM_ROWS" = Some (String "-" (decimal n)) ->
     ws_row (initial_winsize env) = 65536 - n) /\
    (getenv env "WRAPIX_TERM_COLS" = Some (String "-" (decimal n)) ->
     ws_col (initial_winsize env) = 65536 - n).
Proof.
  intros env n Hn.
  assert (Hw : to_ushort (- n) = 65536 - n).
  { unfold to_ushort. change (2 ^ 16) with 65536.
    symmetry. apply (Z.mod_unique (- n) 65536 (-1)); lia. }
  unfold initial_winsize, term_rows, term_cols. cbn [ws_row ws_col].
  split; intros ->; rewrite atoi_minus_decimal by lia; exact Hw.
Qed.

Lemma negative_size_wraps_witness :
  ws_row (initial_winsize [("WRAPIX_TERM_ROWS", "-1")]%string) = 65535.
Proof.
  exact (proj1 (negative_size_wraps [("WRAPIX_TERM_ROWS", "-1")]%string 1
                  ltac:(lia)) eq_refl).
Defined.

(** ** A relay whose stdin is no terminal *)

(** When tcgetattr fails at startup the relay never touches the modes of
    its stdin: nothing is captured and nothing restored, at any point of
    any run. *)
Theorem no_terminal_no_restore :
  forall argv env settable stack es s,
    run argv env es (init None settable stack) = Some s ->
    have_orig s = false /\ restores s = [] /\ console s = None.
Proof.
  intros argv env settable stack es s Hrun.
  pose proof (run_inv _ _ _ _ _ _ _ Hrun) as HI.
  destruct (has_child s) eqn:Hc.
  - destruct (inv_parent _ _ HI Hc) as ((_ & _ & Hrs & Hho & Hco & _) & _).
    rewrite andb_false_r in Hho. rewrite Hho in Hrs, Hco.
    rewrite andb_false_r in Hrs. repeat split; assumption.
  - destruct (inv_no_child _ _ HI Hc)
      as ((_ & _ & _ & _ & _ & Hrs & _ & Hco & Hho) & _).
    repeat split; assumption.
Qed.

Lemma no_terminal_no_restore_witness :
  restores
    (final (run [] sample_env
              [Ret_forkpty 7 3; Go; Ret_fcntl 2; Go; Ret_poll 1 0 1 0;
               Ret_read (Got []); Ret_read (Failed 5); Go; Go]
              (init None false sample_stack)))
  = [].
Proof.
  exact (proj1 (proj2
           (no_terminal_no_restore [] sample_env false sample_stack
              [Ret_forkpty 7 3; Go; Ret_fcntl 2; Go; Ret_poll 1 0 1 0;
               Ret_read (Got []); Ret_read (Failed 5); Go; Go]
              _ ltac:(vm_compute; reflexivity)))).
Defined.

